(** * BIST backtesting tool: indicators, signal generators, portfolio
      simulator and metrics of [src/app.py].

    The program works on pandas columns of IEEE doubles.  Here a column is a
    [list], a bar's date is its position in the list, and a double is a
    value of [num]: a rational number, or one of the three special values
    the program's divisions produce and its guards test for (+inf, -inf,
    NaN).  Arithmetic on finite values is exact (no rounding, one zero);
    the special values follow IEEE 754. *)

From Stdlib Require Import ZArith QArith Qreduction List Bool Lia Lqa.
Import ListNotations.

Open Scope Z_scope.

(** ** Numbers *)

Inductive num : Type :=
| Fin (q : Q)
| PInf
| NInf
| NaN.

(** Finite results are kept in lowest terms, so equal values are equal terms. *)
Definition fin (q : Q) : num := Fin (Qred q).

Definition of_Z (z : Z) : num := Fin (inject_Z z).
Definition of_nat (n : nat) : num := of_Z (Z.of_nat n).

Definition sgn (q : Q) : comparison := (Qnum q ?= 0)%Z.

Definition inf_of_sign (c : comparison) : num :=
  match c with Gt => PInf | Lt => NInf | Eq => NaN end.

Definition num_opp (x : num) : num :=
  match x with
  | Fin q => fin (- q)
  | PInf => NInf
  | NInf => PInf
  | NaN => NaN
  end.

Definition num_add (x y : num) : num :=
  match x, y with
  | NaN, _ | _, NaN => NaN
  | Fin a, Fin b => fin (a + b)
  | PInf, NInf | NInf, PInf => NaN
  | PInf, _ | _, PInf => PInf
  | NInf, _ | _, NInf => NInf
  end.

Definition num_sub (x y : num) : num := num_add x (num_opp y).

Definition num_mul (x y : num) : num :=
  match x, y with
  | NaN, _ | _, NaN => NaN
  | Fin a, Fin b => fin (a * b)
  | Fin a, PInf | PInf, Fin a => inf_of_sign (sgn a)
  | Fin a, NInf | NInf, Fin a => inf_of_sign (CompOpp (sgn a))
  | PInf, PInf | NInf, NInf => PInf
  | PInf, NInf | NInf, PInf => NInf
  end.

(** Division never raises on a column: a zero divisor gives an infinity of
    the sign of the dividend, and 0/0 gives NaN. *)
Definition num_div (x y : num) : num :=
  match x, y with
  | NaN, _ | _, NaN => NaN
  | Fin a, Fin b => if Qeq_bool b 0 then inf_of_sign (sgn a) else fin (a / b)
  | Fin _, PInf | Fin _, NInf => Fin 0
  | PInf, Fin b => match sgn b with Lt => NInf | _ => PInf end
  | NInf, Fin b => match sgn b with Lt => PInf | _ => NInf end
  | _, _ => NaN
  end.

(** Comparisons: every ordered comparison with NaN is false, [!=] with NaN
    is true. *)
Definition num_ltb (x y : num) : bool :=
  match x, y with
  | NaN, _ | _, NaN => false
  | Fin a, Fin b => negb (Qle_bool b a)
  | NInf, NInf | PInf, _ | _, NInf => false
  | NInf, _ | _, PInf => true
  end.

Definition num_gtb (x y : num) : bool := num_ltb y x.

Definition num_leb (x y : num) : bool :=
  match x, y with
  | NaN, _ | _, NaN => false
  | Fin a, Fin b => Qle_bool a b
  | NInf, _ | _, PInf => true
  | PInf, _ | _, NInf => false
  end.

Definition num_eqb (x y : num) : bool :=
  match x, y with
  | Fin a, Fin b => Qeq_bool a b
  | PInf, PInf | NInf, NInf => true
  | _, _ => false
  end.

Definition num_neb (x y : num) : bool := negb (num_eqb x y).

Definition isna (x : num) : bool :=
  match x with NaN => true | _ => false end.

(** [np.sqrt]: NaN below zero.  On a finite non-negative rational the root
    is rounded down at 64 fractional bits relative to the denominator: it is
    exact on squares of rationals, positive on positive arguments and zero
    only at zero. *)
Definition Qsqrt (q : Q) : Q :=
  Z.sqrt (Qnum q * Zpos (Qden q) * 4 ^ 64) # (Qden q * 2 ^ 64).

Definition num_sqrt (x : num) : num :=
  match x with
  | Fin q => if Qle_bool 0 q then fin (Qsqrt q) else NaN
  | PInf => PInf
  | NInf | NaN => NaN
  end.

Declare Scope num_scope.
Delimit Scope num_scope with num.
Bind Scope num_scope with num.
Infix "+" := num_add : num_scope.
Infix "-" := num_sub : num_scope.
Infix "*" := num_mul : num_scope.
Infix "/" := num_div : num_scope.
Notation "- x" := (num_opp x) : num_scope.
Infix "<?" := num_ltb : num_scope.
Infix ">?" := num_gtb : num_scope.
Infix "<=?" := num_leb : num_scope.
Infix "!=?" := num_neb (at level 70) : num_scope.

(** ** Exceptions *)

Inductive exn : Type :=
| ValueError          (* rolling: window must be an integer 0 or greater;
                         slice assignment: lengths differ *)
| IndexError          (* list index out of range *)
| ZeroDivisionError.  (* division of Python numbers by zero *)

Inductive result (A : Type) : Type :=
| Ok (a : A)
| Raise (e : exn).
Arguments Ok {A} a.
Arguments Raise {A} e.

Definition bind {A B : Type} (r : result A) (k : A -> result B) : result B :=
  match r with
  | Ok a => k a
  | Raise e => Raise e
  end.

Notation "x <- r ;; k" := (bind r (fun x => k))
  (at level 61, r at next level, right associativity).

(** ** Column operations (pandas / numpy) *)

Definition nsum (xs : list num) : num := fold_left num_add xs (Fin 0).

(** The [w] entries of [xs] that end at position [i]. *)
Definition window (w i : nat) (xs : list num) : list num :=
  firstn w (skipn (S i - w) xs).

(** Rolling and expanding windows take an infinite entry for a missing
    one. *)
Definition prep_value (x : num) : num :=
  match x with
  | PInf | NInf => NaN
  | _ => x
  end.

(** [xs.rolling(window=w).mean()]: undefined (NaN) until [w] observations
    are available and whenever the window holds a missing entry; every
    window's mean is computed from its own entries. *)
Definition rolling_mean_at (w : nat) (xs : list num) (i : nat) : num :=
  if (S i <? w)%nat then NaN
  else (nsum (window w i (map prep_value xs)) / of_nat w)%num.

Definition rolling_mean (w : Z) (xs : list num) : result (list num) :=
  if w <? 0 then Raise ValueError
  else Ok (map (rolling_mean_at (Z.to_nat w) xs) (seq 0 (length xs))).

(** [xs.diff()] on a float column. *)
Fixpoint diff_from (prev : num) (xs : list num) : list num :=
  match xs with
  | [] => []
  | x :: tl => (x - prev)%num :: diff_from x tl
  end.

Definition diff (xs : list num) : list num :=
  match xs with
  | [] => []
  | x :: tl => NaN :: diff_from x tl
  end.

(** [xs.where(cond, other)] with a scalar [other]. *)
Definition where_ (cond : num -> bool) (other : num) (xs : list num) : list num :=
  map (fun x => if cond x then x else other) xs.

(** ** Indicators *)

Definition calculate_ma (Close : list num) (period : Z) : result (list num) :=
  rolling_mean period Close.

Definition calculate_rsi_gain (Close : list num) (period : Z) : result (list num) :=
  rolling_mean period (where_ (fun d => d >? Fin 0)%num (Fin 0) (diff Close)).

Definition calculate_rsi_loss (Close : list num) (period : Z) : result (list num) :=
  rolling_mean period
    (map num_opp (where_ (fun d => d <? Fin 0)%num (Fin 0) (diff Close))).

Definition rsi_of (gain loss : num) : num :=
  let rs := (gain / loss)%num in
  (of_Z 100 - of_Z 100 / (of_Z 1 + rs))%num.

Definition calculate_rsi (Close : list num) (period : Z) : result (list num) :=
  gain <- calculate_rsi_gain Close period ;;
  loss <- calculate_rsi_loss Close period ;;
  Ok (map (fun gl => rsi_of (fst gl) (snd gl)) (combine gain loss)).

(** ** Strategies *)

(** The columns of the data frame the strategies and the simulator use.
    [Position] is the [diff] of an integer column, a float column whose
    first entry is NaN ([None]). *)
Record frame : Type := {
  Close : list num;
  Signal : list Z;
  Position : list (option Z)
}.

Fixpoint zdiff_from (prev : Z) (xs : list Z) : list (option Z) :=
  match xs with
  | [] => []
  | x :: tl => Some (x - prev) :: zdiff_from x tl
  end.

Definition zdiff (xs : list Z) : list (option Z) :=
  match xs with
  | [] => []
  | x :: tl => None :: zdiff_from x tl
  end.

(** [Signal] is 0 on the bars before [short_period]; from there on it is
    [np.where(MA_Short > MA_Long, 1, 0)].  The slice assignment
    [data['Signal'][short_period:] = ...] is taken to write through to the
    frame (pandas before version 3); it raises ValueError when the slice
    starts beyond the last bar, the empty value then having another length
    than the one computed for the slice. *)
Definition ma_signal_at (short_period : Z) (i : nat) (ma_short ma_long : num) : Z :=
  if Z.of_nat i <? short_period then 0
  else if (ma_short >? ma_long)%num then 1 else 0.

Definition ma_signal (short_period : Z) (ma_short ma_long : list num) : list Z :=
  map (fun t => ma_signal_at short_period (fst t) (fst (snd t)) (snd (snd t)))
      (combine (seq 0 (length ma_short)) (combine ma_short ma_long)).

Definition ma_crossover_strategy (Close : list num) (short_period long_period : Z)
  : result frame :=
  ma_short <- calculate_ma Close short_period ;;
  ma_long <- calculate_ma Close long_period ;;
  if Z.of_nat (length Close) <? short_period then Raise ValueError
  else
    let signal := ma_signal short_period ma_short ma_long in
    Ok {| Close := Close; Signal := signal; Position := zdiff signal |}.

(** [np.where(RSI < oversold, 1, 0)], then
    [np.where(RSI > overbought, -1, Signal)]. *)
Definition rsi_signal_at (oversold overbought : Z) (rsi : num) : Z :=
  let signal := if (rsi <? of_Z oversold)%num then 1 else 0 in
  if (rsi >? of_Z overbought)%num then -1 else signal.

Definition rsi_strategy (Close : list num) (rsi_period oversold overbought : Z)
  : result frame :=
  rsi <- calculate_rsi Close rsi_period ;;
  let signal := map (rsi_signal_at oversold overbought) rsi in
  Ok {| Close := Close; Signal := signal; Position := zdiff signal |}.

(** ** Portfolio simulation *)

Definition pos_is (v : Z) (p : option Z) : bool :=
  match p with
  | Some z => z =? v
  | None => false
  end.

(** [data[data['Position'] == v].index]: the dates, in order, of the bars
    whose [Position] is [v]. *)
Definition index_where (v : Z) (Position : list (option Z)) : list nat :=
  map fst (filter (fun ip => pos_is v (snd ip))
                  (combine (seq 0 (length Position)) Position)).

(** [date in idx] *)
Definition mem (date : nat) (idx : list nat) : bool := existsb (Nat.eqb date) idx.

(** [data.loc[date, 'Close']] *)
Definition loc (Close : list num) (date : nat) : num := nth date Close NaN.

Record sim : Type := {
  portfolio_value : num;
  position : Z;
  shares : num;
  portfolio_values : list num
}.

Definition sim_init (initial_capital : num) : sim :=
  {| portfolio_value := initial_capital; position := 0; shares := Fin 0;
     portfolio_values := [] |}.

(** The [if]/[elif] of the loop body. *)
Definition trade (buy_signals sell_signals : list nat) (Close : list num)
           (st : sim) (date : nat) : sim :=
  if mem date buy_signals && (position st =? 0) then
    {| portfolio_value := portfolio_value st;
       position := 1;
       shares := (portfolio_value st / loc Close date)%num;
       portfolio_values := portfolio_values st |}
  else if mem date sell_signals && (position st =? 1) then
    {| portfolio_value := (shares st * loc Close date)%num;
       position := 0;
       shares := Fin 0;
       portfolio_values := portfolio_values st |}
  else st.

(** The value appended for the bar. *)
Definition mark (Close : list num) (st : sim) (date : nat) : num :=
  if position st =? 1 then (shares st * loc Close date)%num
  else portfolio_value st.

Definition sim_step (buy_signals sell_signals : list nat) (Close : list num)
           (st : sim) (date : nat) : sim :=
  let st' := trade buy_signals sell_signals Close st date in
  {| portfolio_value := portfolio_value st';
     position := position st';
     shares := shares st';
     portfolio_values := portfolio_values st' ++ [mark Close st' date] |}.

(** The state after the first [k] bars of the loop. *)
Definition sim_after (data : frame) (initial_capital : num) (k : nat) : sim :=
  fold_left (sim_step (index_where 1 (Position data))
                      (index_where (-1) (Position data)) (Close data))
            (seq 0 k) (sim_init initial_capital).

Definition simulate (data : frame) (initial_capital : num) : sim :=
  sim_after data initial_capital (length (Close data)).

(** ** Metrics *)

Definition dropna (xs : list num) : list num := filter (fun x => negb (isna x)) xs.

(** [xs.pct_change()]: [xs / xs.shift(1) - 1] on the column as it is.
    (pandas before version 3 first carries the last number forward over
    NaN entries; the two agree on every column without NaN.) *)
Fixpoint pct_from (prev : num) (xs : list num) : list num :=
  match xs with
  | [] => []
  | x :: tl => (x / prev - of_Z 1)%num :: pct_from x tl
  end.

Definition pct_change (xs : list num) : list num :=
  match xs with
  | [] => []
  | x :: tl => NaN :: pct_from x tl
  end.

(** [xs.mean()]: NaN entries are skipped, the mean of nothing is NaN. *)
Definition series_mean (xs : list num) : num :=
  let ys := dropna xs in (nsum ys / of_nat (length ys))%num.

(** [xs.std()]: sample standard deviation (ddof = 1), NaN with fewer than
    two observations. *)
Definition series_std (xs : list num) : num :=
  let ys := dropna xs in
  let n := length ys in
  if (n <=? 1)%nat then NaN
  else
    let m := (nsum ys / of_nat n)%num in
    num_sqrt (nsum (map (fun y => ((y - m) * (y - m))%num) ys) / of_nat (n - 1))%num.

Fixpoint cumprod_from (acc : num) (xs : list num) : list num :=
  match xs with
  | [] => []
  | x :: tl => let a := (acc * x)%num in a :: cumprod_from a tl
  end.

Definition cumprod (xs : list num) : list num := cumprod_from (Fin 1) xs.

(** Largest / smallest of two values, a NaN being no observation. *)
Definition nan_max (acc x : num) : num :=
  if isna x then acc else if isna acc then x
  else if (acc <? x)%num then x else acc.

Definition nan_min (acc x : num) : num :=
  if isna x then acc else if isna acc then x
  else if (x <? acc)%num then x else acc.

Fixpoint expanding_max_from (acc : num) (xs : list num) : list num :=
  match xs with
  | [] => []
  | x :: tl =>
      let a := nan_max acc (prep_value x) in a :: expanding_max_from a tl
  end.

(** [xs.expanding().max()] *)
Definition expanding_max (xs : list num) : list num := expanding_max_from NaN xs.

(** [xs.min()]: NaN on an empty column. *)
Definition series_min (xs : list num) : num := fold_left nan_min xs NaN.

Record metrics : Type := {
  total_return : num;
  sharpe_ratio : num;
  max_drawdown : num;
  win_rate : num;
  trades : nat
}.

Definition returns_of (portfolio_values : list num) : list num :=
  dropna (pct_change portfolio_values).

Definition sharpe_of (returns : list num) : num :=
  if (series_std returns !=? Fin 0)%num
  then (series_mean returns / series_std returns * num_sqrt (of_Z 252))%num
  else of_Z 0.

Definition drawdown_of (returns : list num) : list num :=
  let cumulative := cumprod (map (num_add (of_Z 1)) returns) in
  let running_max := expanding_max cumulative in
  map (fun cr => ((fst cr - snd cr) / snd cr)%num) (combine cumulative running_max).

Definition max_drawdown_of (returns : list num) : num :=
  (series_min (drawdown_of returns) * of_Z 100)%num.

(** The trades counted as won: the [i]-th buy date is paired with the
    [i]-th sell date, for [i] below the shorter of the two lists. *)
Definition profitable_trades (Close : list num) (buy_signals sell_signals : list nat) : nat :=
  length (filter (fun i => (loc Close (nth i sell_signals O) >? loc Close (nth i buy_signals O))%num)
                 (seq 0 (Nat.min (length buy_signals) (length sell_signals)))).

Definition win_rate_of (Close : list num) (buy_signals sell_signals : list nat) : num :=
  let trades := length buy_signals in
  if (0 <? trades)%nat
  then (of_nat (profitable_trades Close buy_signals sell_signals) / of_nat trades * of_Z 100)%num
  else of_Z 0.

(** The loop computes its numbers from a close, a numpy float, except
    [portfolio_value] as long as nothing was bought: the values it appends
    are then the Python number [initial_capital] itself. *)
Definition never_bought (data : frame) (initial_capital : num) : bool :=
  forallb (fun k => position (sim_after data initial_capital (S k)) =? 0)
          (seq 0 (length (Close data))).

(** [(final - initial_capital) / initial_capital * 100]: a division of
    Python numbers raises on a zero divisor, a division of a numpy float
    gives an infinity or NaN. *)
Definition total_return_of (python_numbers : bool) (final initial_capital : num)
  : result num :=
  if python_numbers && num_eqb initial_capital (Fin 0)
  then Raise ZeroDivisionError
  else Ok ((final - initial_capital) / initial_capital * of_Z 100)%num.

(** [portfolio_values[-1]] raises on an empty list. *)
Definition last_value (xs : list num) : result num :=
  match xs with
  | [] => Raise IndexError
  | _ => Ok (last xs NaN)
  end.

Definition calculate_performance_metrics (data : frame) (initial_capital : num)
  : result metrics :=
  let buy_signals := index_where 1 (Position data) in
  let sell_signals := index_where (-1) (Position data) in
  let values := portfolio_values (simulate data initial_capital) in
  final <- last_value values ;;
  total_return <- total_return_of (never_bought data initial_capital)
                                  final initial_capital ;;
  let returns := returns_of values in
  Ok {| total_return := total_return;
        sharpe_ratio := sharpe_of returns;
        max_drawdown := max_drawdown_of returns;
        win_rate := win_rate_of (Close data) buy_signals sell_signals;
        trades := length buy_signals |}.

(** ** The analysis run (the button handler) *)

Inductive strategy : Type :=
| MA_Crossover (short_ma long_ma : Z)
| RSI_Strategy (rsi_period oversold overbought : Z).

Definition apply_strategy (s : strategy) (Close : list num) : result frame :=
  match s with
  | MA_Crossover short_ma long_ma => ma_crossover_strategy Close short_ma long_ma
  | RSI_Strategy rsi_period oversold overbought =>
      rsi_strategy Close rsi_period oversold overbought
  end.

(** What the handler shows: no data, the caught exception, or the metrics. *)
Inductive outcome : Type :=
| NoData
| Failed (e : exn)
| Completed (m : metrics).

Definition run_analysis (s : strategy) (Close : list num) (initial_capital : num)
  : outcome :=
  match Close with
  | [] => NoData
  | _ =>
      match (data <- apply_strategy s Close ;;
             calculate_performance_metrics data initial_capital) with
      | Ok m => Completed m
      | Raise e => Failed e
      end
  end.

(** ** Vocabulary of the properties *)

Definition closes_of (zs : list Z) : list num := map of_Z zs.

(** Bar [k] carries a buy (sell) signal. *)
Definition is_buy (data : frame) (k : nat) : bool :=
  mem k (index_where 1 (Position data)).

Definition is_sell (data : frame) (k : nat) : bool :=
  mem k (index_where (-1) (Position data)).

(** What the loop did on a bar, read off the position before and after. *)
Inductive event : Type := Enter | Exit.

Definition flip (e : event) : event :=
  match e with Enter => Exit | Exit => Enter end.

Definition event_of (before after : sim) : list event :=
  if (position before =? 0) && (position after =? 1) then [Enter]
  else if (position before =? 1) && (position after =? 0) then [Exit]
  else [].

Definition events (data : frame) (initial_capital : num) (n : nat) : list event :=
  flat_map (fun k => event_of (sim_after data initial_capital k)
                              (sim_after data initial_capital (S k)))
           (seq 0 n).

(** [es] is [expect], then the other event, then [expect] again, ... *)
Fixpoint alternates (expect : event) (es : list event) : Prop :=
  match es with
  | [] => True
  | e :: tl => e = expect /\ alternates (flip expect) tl
  end.

(** The event that may follow [es] when [es] alternates from [Enter]. *)
Definition expected_after (es : list event) : event :=
  if Nat.even (length es) then Enter else Exit.

(** The number of (buy, sell) pairs the win rate looks at. *)
Definition completed_trades (data : frame) : nat :=
  Nat.min (length (index_where 1 (Position data)))
          (length (index_where (-1) (Position data))).

(** The moves of a signal column from [a] to [b] between consecutive
    bars. *)
Fixpoint moves_from (a b prev : Z) (xs : list Z) : nat :=
  match xs with
  | [] => O
  | x :: tl =>
      ((if (prev =? a)%Z && (x =? b)%Z then 1 else 0) + moves_from a b x tl)%nat
  end.

Definition moves (a b : Z) (xs : list Z) : nat :=
  match xs with
  | [] => O
  | x :: tl => moves_from a b x tl
  end.

(** The entries the loop executed on the first [n] bars. *)
Definition is_enter (e : event) : bool :=
  match e with Enter => true | Exit => false end.

Definition entries (data : frame) (initial_capital : num) (n : nat) : nat :=
  length (filter is_enter (events data initial_capital n)).

(** Closes 10, 9, 18, 9: a fall, a jump, a fall.  Closes 10, 11, 10: a
    rise and a fall. *)
Definition flip_closes : list num := closes_of [10; 9; 18; 9].
Definition bump_closes : list num := closes_of [10; 11; 10].

(** The win rate as the specification words it: the share, among the
    completed trades only, of those that sold above the buying price. *)
Definition realized_win_rate (data : frame) : num :=
  let buy_signals := index_where 1 (Position data) in
  let sell_signals := index_where (-1) (Position data) in
  if (0 <? completed_trades data)%nat
  then (of_nat (profitable_trades (Close data) buy_signals sell_signals)
        / of_nat (completed_trades data) * of_Z 100)%num
  else of_Z 0.

(** Closes 10, 12, 14, 13, 15 under MA crossover 1/2: one trade bought at
    12 and sold at 13, and a second one bought at 15 and still open. *)
Definition open_closes : list num := closes_of [10; 12; 14; 13; 15].

Definition open_frame : frame :=
  {| Close := open_closes;
     Signal := [0; 1; 1; 0; 1];
     Position := [None; Some 1; Some 0; Some (-1); Some 1] |}.

(** Closes 10, 9, 8, 9: two falls, then a rise. *)
Definition dip_closes : list num := closes_of [10; 9; 8; 9].

(** Closes 10, 9, 8, 18: two falls, then a jump. *)
Definition jump_closes : list num := closes_of [10; 9; 8; 18].

(** Closes 10, 10, 10: no move at all. *)
Definition still_closes : list num := closes_of [10; 10; 10].

(** The periods the code works with on a series of [bars] bars: no
    negative window, and no MA signal slice beyond the last bar. *)
Definition periods_accepted (s : strategy) (bars : nat) : Prop :=
  match s with
  | MA_Crossover short_ma long_ma =>
      0 <= short_ma <= Z.of_nat bars /\ 0 <= long_ma
  | RSI_Strategy rsi_period _ _ => 0 <= rsi_period
  end.


(** Two bars: closes 10, 11. *)
Definition two_closes : list num := closes_of [10; 11].

(** Finite and above zero / above -1 / not above zero. *)
Definition positive (x : num) : Prop :=
  match x with Fin q => (0 < q)%Q | _ => False end.



(** Not an infinity / finite and not below zero. *)
Definition no_infinity (x : num) : Prop :=
  match x with PInf | NInf => False | _ => True end.

Definition nonnegative (x : num) : Prop :=
  match x with Fin q => (0 <= q)%Q | _ => False end.



(** The 5-bar scenario: closes 10, 12, 11, 15, 14 under MA crossover 1/2. *)
Definition demo_closes : list num := closes_of [10; 12; 11; 15; 14].

Definition demo_frame : frame :=
  {| Close := demo_closes;
     Signal := [0; 1; 0; 1; 0];
     Position := [None; Some 1; Some (-1); Some 1; Some (-1)] |}.

(** ** The other indicators *)

(** [xs.rolling(window=w).std()]: sample standard deviation (ddof = 1) of
    each full window, NaN while the window is not full, when it holds a NaN
    and when it has a single entry. *)
Definition rolling_std_at (w : nat) (xs : list num) (i : nat) : num :=
  if (S i <? w)%nat then NaN
  else
    let win := window w i (map prep_value xs) in
    let m := (nsum win / of_nat w)%num in
    num_sqrt (nsum (map (fun x => ((x - m) * (x - m))%num) win)
              / of_nat (w - 1))%num.

Definition rolling_std (w : Z) (xs : list num) : result (list num) :=
  if w <? 0 then Raise ValueError
  else Ok (map (rolling_std_at (Z.to_nat w) xs) (seq 0 (length xs))).

(** Element-wise operation on two aligned columns. *)
Definition zip_with (f : num -> num -> num) (xs ys : list num) : list num :=
  map (fun xy => f (fst xy) (snd xy)) (combine xs ys).

(** Returns [(upper_band, ma, lower_band)]. *)
Definition calculate_bollinger_bands (Close : list num) (period std : Z)
  : result (list num * list num * list num) :=
  ma <- rolling_mean period Close ;;
  std_dev <- rolling_std period Close ;;
  let width := map (fun sd => (sd * of_Z std)%num) std_dev in
  Ok (zip_with num_add ma width, ma, zip_with num_sub ma width).

(** [xs.ewm(span=span, adjust=False).mean()].  The smoothing factor is
    [1 / (1 + com)] with [com = (span - 1) / 2]; a span below 1 is refused.
    The running state is the weighted mean so far and the weight of the
    past, which decays over missing entries. *)
Definition ewm_alpha (span : Z) : num :=
  (of_Z 1 / (of_Z 1 + (of_Z span - of_Z 1) / of_Z 2))%num.

Record ewm_state : Type := { weighted : num; old_wt : num }.

Definition ewm_step (alpha : num) (st : ewm_state) (cur : num) : ewm_state :=
  if negb (isna (weighted st)) then
    let old := (old_wt st * (of_Z 1 - alpha))%num in
    if negb (isna cur) then
      {| weighted :=
           if (weighted st !=? cur)%num
           then ((old * weighted st + alpha * cur) / (old + alpha))%num
           else weighted st;
         old_wt := of_Z 1 |}
    else {| weighted := weighted st; old_wt := old |}
  else if negb (isna cur) then {| weighted := cur; old_wt := old_wt st |}
  else st.

Fixpoint ewm_from (alpha : num) (st : ewm_state) (xs : list num) : list num :=
  match xs with
  | [] => []
  | x :: tl =>
      let st' := ewm_step alpha st x in weighted st' :: ewm_from alpha st' tl
  end.

Definition ewm_mean (span : Z) (xs : list num) : result (list num) :=
  if span <? 1 then Raise ValueError
  else
    match xs with
    | [] => Ok []
    | x :: tl =>
        Ok (x :: ewm_from (ewm_alpha span) {| weighted := x; old_wt := of_Z 1 |} tl)
    end.

(** Returns [(macd, signal_line, histogram)]. *)
Definition calculate_macd (Close : list num) (fast slow signal : Z)
  : result (list num * list num * list num) :=
  exp1 <- ewm_mean fast Close ;;
  exp2 <- ewm_mean slow Close ;;
  let macd := zip_with num_sub exp1 exp2 in
  signal_line <- ewm_mean signal macd ;;
  Ok (macd, signal_line, zip_with num_sub macd signal_line).

(** ** The table of completed trades (the handler, before formatting) *)

Record trade_row : Type := {
  buy_date : nat;
  buy_price : num;
  sell_date : nat;
  sell_price : num;
  profit : num
}.

Definition trade_row_at (Close : list num) (buy_list sell_list : list nat)
           (i : nat) : trade_row :=
  let buy_price := loc Close (nth i buy_list O) in
  let sell_price := loc Close (nth i sell_list O) in
  {| buy_date := nth i buy_list O;
     buy_price := buy_price;
     sell_date := nth i sell_list O;
     sell_price := sell_price;
     profit := ((sell_price - buy_price) / buy_price * of_Z 100)%num |}.

Definition trades_data (data : frame) : list trade_row :=
  let buy_list := index_where 1 (Position data) in
  let sell_list := index_where (-1) (Position data) in
  map (trade_row_at (Close data) buy_list sell_list)
      (seq 0 (Nat.min (length buy_list) (length sell_list))).

(** ** Vocabulary of the further properties *)

Definition finite (x : num) : Prop :=
  match x with Fin _ => True | _ => False end.

(** Finite and between [lo] and [hi]. *)
Definition within (lo hi : Q) (x : num) : Prop :=
  match x with Fin q => (lo <= q)%Q /\ (q <= hi)%Q | _ => False end.

(** The same number, whatever the fraction that writes it. *)
Definition same_value (x y : num) : Prop :=
  match x, y with
  | Fin a, Fin b => (a == b)%Q
  | PInf, PInf | NInf, NInf | NaN, NaN => True
  | _, _ => False
  end.

(** The exponential recursion [y = (1 - a) * previous + a * x], entry by
    entry. *)
Fixpoint ema_recursion (a : Q) (prev : Q) (xs ys : list num) : Prop :=
  match xs, ys with
  | [], [] => True
  | Fin x :: xs', Fin y :: ys' =>
      (y == (1 - a) * prev + a * x)%Q /\ ema_recursion a y xs' ys'
  | _, _ => False
  end.

(** * Properties *)

(** ** Worked examples *)

Example rsi_example :
  calculate_rsi (closes_of [10; 9; 8; 9; 10; 11; 11; 11]) 2
  = Ok [NaN; Fin 0; Fin 0; Fin 50; Fin 100; Fin 100; Fin 100; NaN].
Proof. vm_compute. reflexivity. Qed.

Example demo_frame_is_ma_crossover :
  ma_crossover_strategy demo_closes 1 2 = Ok demo_frame.
Proof. vm_compute. reflexivity. Qed.

Example open_frame_is_ma_crossover :
  ma_crossover_strategy open_closes 1 2 = Ok open_frame.
Proof. vm_compute. reflexivity. Qed.

(** ** The simulation loop *)

Section Simulation.

Variable data : frame.
Variable initial_capital : num.

Lemma sim_after_S (k : nat) :
  sim_after data initial_capital (S k)
  = sim_step (index_where 1 (Position data)) (index_where (-1) (Position data)) (Close data)
             (sim_after data initial_capital k) k.
Proof.
  unfold sim_after. rewrite seq_S, fold_left_app. reflexivity.
Qed.

Lemma trade_position (st : sim) (date : nat) :
  position st = 0 \/ position st = 1 ->
  position (trade (index_where 1 (Position data)) (index_where (-1) (Position data)) (Close data) st date) = 0
  \/ position (trade (index_where 1 (Position data)) (index_where (-1) (Position data)) (Close data) st date) = 1.
Proof.
  intros H. unfold trade.
  destruct (mem date (index_where 1 (Position data)) && (position st =? 0)); [right; reflexivity|].
  destruct (mem date (index_where (-1) (Position data)) && (position st =? 1)); [left; reflexivity|].
  exact H.
Qed.

Lemma position_01 (k : nat) :
  position (sim_after data initial_capital k) = 0
  \/ position (sim_after data initial_capital k) = 1.
Proof.
  induction k as [|k IH].
  - left. reflexivity.
  - rewrite sim_after_S. unfold sim_step. cbn [position].
    apply trade_position, IH.
Qed.

Lemma trade_values (st : sim) (date : nat) :
  portfolio_values (trade (index_where 1 (Position data)) (index_where (-1) (Position data)) (Close data) st date)
  = portfolio_values st.
Proof.
  unfold trade.
  destruct (mem date (index_where 1 (Position data)) && (position st =? 0)); [reflexivity|].
  destruct (mem date (index_where (-1) (Position data)) && (position st =? 1)); reflexivity.
Qed.

Lemma values_S (k : nat) :
  portfolio_values (sim_after data initial_capital (S k))
  = portfolio_values (sim_after data initial_capital k)
    ++ [mark (Close data) (sim_after data initial_capital (S k)) k].
Proof.
  rewrite sim_after_S. unfold sim_step. cbn [portfolio_values].
  rewrite trade_values. reflexivity.
Qed.

Lemma values_length (k : nat) :
  length (portfolio_values (sim_after data initial_capital k)) = k.
Proof.
  induction k as [|k IH]; [reflexivity|].
  rewrite values_S, length_app, IH. cbn. lia.
Qed.

(** Later bars only append: the value of bar [k] stays where it was put. *)
Lemma values_nth (n k : nat) :
  (k < n)%nat ->
  nth k (portfolio_values (sim_after data initial_capital n)) NaN
  = mark (Close data) (sim_after data initial_capital (S k)) k.
Proof.
  induction n as [|n IH]; intros Hk; [lia|].
  destruct (Nat.eq_dec k n) as [->|Hne].
  - rewrite values_S, app_nth2; rewrite values_length; [|lia].
    rewrite Nat.sub_diag. reflexivity.
  - rewrite values_S, app_nth1; [|rewrite values_length; lia].
    apply IH. lia.
Qed.

(** A bar that starts and ends flat leaves the cash balance alone. *)
Lemma flat_keeps_cash (k : nat) :
  position (sim_after data initial_capital k) = 0 ->
  position (sim_after data initial_capital (S k)) = 0 ->
  portfolio_value (sim_after data initial_capital (S k))
  = portfolio_value (sim_after data initial_capital k).
Proof.
  rewrite sim_after_S. unfold sim_step, trade. cbn [position portfolio_value].
  intros H0. rewrite H0. cbn [Z.eqb].
  rewrite andb_true_r, andb_false_r.
  destruct (mem k (index_where 1 (Position data))); cbn [position portfolio_value]; [discriminate|].
  reflexivity.
Qed.

End Simulation.

(** ** Buy and sell dates *)

Lemma mem_index_from (v : Z) (P : list (option Z)) (s k : nat) :
  mem k (map fst (filter (fun ip => pos_is v (snd ip))
                         (combine (seq s (length P)) P)))
  = (s <=? k)%nat
    && match nth_error P (k - s) with
       | Some p => pos_is v p
       | None => false
       end.
Proof.
  revert s. induction P as [|p P IH]; intros s.
  - cbn. destruct (k - s)%nat; cbn; rewrite andb_false_r; reflexivity.
  - cbn [length seq combine filter snd].
    assert (Htl : mem k (map fst (filter (fun ip => pos_is v (snd ip))
                                         (combine (seq (S s) (length P)) P)))
                  = (S s <=? k)%nat
                    && match nth_error P (k - S s) with
                       | Some p => pos_is v p
                       | None => false
                       end) by apply IH.
    destruct (Nat.leb_spec s k) as [Hle|Hgt].
    + destruct (Nat.eq_dec k s) as [->|Hne].
      * rewrite Nat.sub_diag. cbn [nth_error andb].
        destruct (pos_is v p) eqn:Hp.
        -- cbn. rewrite Nat.eqb_refl. reflexivity.
        -- rewrite Htl. destruct (Nat.leb_spec (S s) s); [lia|]. reflexivity.
      * assert (Hk : (k - s = S (k - S s))%nat) by lia.
        rewrite Hk. cbn [nth_error andb].
        destruct (pos_is v p).
        -- cbn [map fst mem existsb]. fold (mem k).
           unfold mem in *. rewrite Htl.
           destruct (Nat.eqb_spec k s); [lia|]. cbn [orb].
           destruct (Nat.leb_spec (S s) k); [|lia]. reflexivity.
        -- rewrite Htl. destruct (Nat.leb_spec (S s) k); [|lia]. reflexivity.
    + cbn [andb].
      destruct (pos_is v p).
      * cbn [map fst mem existsb]. unfold mem in *. rewrite Htl.
        destruct (Nat.eqb_spec k s); [lia|].
        destruct (Nat.leb_spec (S s) k); [lia|]. reflexivity.
      * rewrite Htl. destruct (Nat.leb_spec (S s) k); [lia|]. reflexivity.
Qed.

(** A date is in [data[data['Position'] == v].index] exactly when the
    [Position] of that bar is [v]. *)
Lemma mem_index_where (v : Z) (P : list (option Z)) (k : nat) :
  mem k (index_where v P)
  = match nth_error P k with
    | Some p => pos_is v p
    | None => false
    end.
Proof.
  unfold index_where. rewrite mem_index_from, Nat.sub_0_r. reflexivity.
Qed.

Lemma buy_not_sell (data : frame) (k : nat) :
  is_buy data k = true -> is_sell data k = false.
Proof.
  unfold is_buy, is_sell. rewrite !mem_index_where.
  destruct (nth_error (Position data) k) as [[z|]|]; cbn; try discriminate.
  intros H. apply Z.eqb_eq in H. subst z. reflexivity.
Qed.

(** ** Equity curve *)

(** C1: the simulator appends exactly one portfolio value per bar; on a bar
    that ends Flat the value is the cash balance, so two consecutive Flat
    bars carry the same value, and on a bar that ends Long the value is the
    shares held times that bar's close. *)
Theorem C1_equity_point_per_bar
  (data : frame) (initial_capital : num) (k : nat)
  (Hk : (k < length (Close data))%nat) :
  let values := portfolio_values (simulate data initial_capital) in
  let st := sim_after data initial_capital (S k) in
  length values = length (Close data)
  /\ (position st = 0 \/ position st = 1)
  /\ (position st = 0 -> nth k values NaN = portfolio_value st)
  /\ (position st = 1 ->
      nth k values NaN = (shares st * loc (Close data) k)%num)
  /\ ((S k < length (Close data))%nat ->
      position st = 0 ->
      position (sim_after data initial_capital (S (S k))) = 0 ->
      nth (S k) values NaN = nth k values NaN).
Proof.
  cbv zeta. unfold simulate.
  repeat split.
  - apply values_length.
  - apply position_01.
  - intros H0. rewrite values_nth by exact Hk. unfold mark.
    rewrite H0. reflexivity.
  - intros H1. rewrite values_nth by exact Hk. unfold mark.
    rewrite H1. reflexivity.
  - intros Hk' H0 H0'.
    rewrite !values_nth by assumption. unfold mark.
    rewrite H0, H0'. cbn [Z.eqb].
    apply flat_keeps_cash; assumption.
Qed.

Lemma C1_equity_point_per_bar_witness :
  (2 < length (Close demo_frame))%nat
  /\ length (portfolio_values (simulate demo_frame (of_Z 100000))) = 5%nat
  /\ nth 2 (portfolio_values (simulate demo_frame (of_Z 100000))) NaN
     = portfolio_value (sim_after demo_frame (of_Z 100000) 3).
Proof.
  split; [cbn; lia|].
  pose proof (C1_equity_point_per_bar demo_frame (of_Z 100000) 2) as H.
  cbv zeta in H.
  destruct H as (Hlen & _ & Hflat & _); [cbn; lia|].
  split; [exact Hlen|].
  apply Hflat. vm_compute. reflexivity.
Defined.

(** Under a 0/1 signal column that starts at 0, as MA crossover produces,
    the loop's position on every bar is the signal of that bar, so Flat and
    Long in the sense of [Signal] and of the loop coincide. *)
Lemma zdiff_nth (xs : list Z) (k : nat) (a b : Z) :
  nth_error xs k = Some a -> nth_error xs (S k) = Some b ->
  nth_error (zdiff xs) (S k) = Some (Some (b - a)).
Proof.
  destruct xs as [|x xs]; [destruct k; discriminate|].
  cbn [zdiff]. revert x k. induction xs as [|y ys IH]; intros x k Ha Hb.
  - destruct k; discriminate.
  - destruct k as [|k]; cbn in Ha, Hb |- *.
    + congruence.
    + apply (IH y k); assumption.
Qed.

Lemma position_follows_signal (data : frame) (initial_capital : num) (k : nat) :
  Position data = zdiff (Signal data) ->
  Forall (fun x => x = 0 \/ x = 1) (Signal data) ->
  nth_error (Signal data) 0 = Some 0 ->
  (k < length (Signal data))%nat ->
  nth_error (Signal data) k
  = Some (position (sim_after data initial_capital (S k))).
Proof.
  intros HP H01 H0. induction k as [|k IH]; intros Hk.
  - rewrite H0, sim_after_S. unfold sim_step, trade. cbn [position].
    rewrite !mem_index_where, HP.
    destruct (Signal data) as [|x xs]; [discriminate|]. reflexivity.
  - specialize (IH ltac:(lia)).
    destruct (nth_error (Signal data) (S k)) as [b|] eqn:Hb;
      [|apply nth_error_None in Hb; lia].
    assert (Hb01 : b = 0 \/ b = 1).
    { rewrite Forall_forall in H01. eapply H01, nth_error_In, Hb. }
    pose proof (zdiff_nth _ _ _ _ IH Hb) as Hz.
    rewrite (sim_after_S data initial_capital (S k)).
    unfold sim_step, trade. cbn [position].
    rewrite !mem_index_where, HP, Hz. cbn [pos_is].
    pose proof (position_01 data initial_capital (S k)) as Hp.
    set (st := sim_after data initial_capital (S k)) in *. clearbody st.
    destruct Hp as [Hp|Hp]; rewrite Hp; destruct Hb01 as [-> | ->];
      cbn; rewrite ?Hp; reflexivity.
Qed.

(** ** Entries and exits *)

Lemma alternates_app (e : event) (es fs : list event) :
  alternates e es ->
  alternates (if Nat.even (length es) then e else flip e) fs ->
  alternates e (es ++ fs).
Proof.
  revert e. induction es as [|x es IH]; intros e Hes Hfs.
  - exact Hfs.
  - destruct Hes as [-> Hes]. cbn [app alternates]. split; [reflexivity|].
    apply IH; [exact Hes|].
    cbn [length] in Hfs. rewrite Nat.even_succ, <- Nat.negb_even in Hfs.
    destruct (Nat.even (length es)); cbn in Hfs |- *; [exact Hfs|].
    destruct e; exact Hfs.
Qed.

Lemma events_S (data : frame) (cap : num) (n : nat) :
  events data cap (S n)
  = events data cap n
    ++ event_of (sim_after data cap n) (sim_after data cap (S n)).
Proof.
  unfold events. rewrite seq_S, flat_map_app. cbn. rewrite app_nil_r. reflexivity.
Qed.

(** The loop is Long exactly after an odd number of entries and exits. *)
Lemma events_parity (data : frame) (cap : num) (n : nat) :
  alternates Enter (events data cap n)
  /\ expected_after (events data cap n)
     = (if position (sim_after data cap n) =? 0 then Enter else Exit).
Proof.
  induction n as [|n [IHa IHe]].
  - split; [exact I|reflexivity].
  - rewrite events_S.
    unfold expected_after in *.
    destruct (position_01 data cap n) as [H0|H0];
    destruct (position_01 data cap (S n)) as [H1|H1];
      unfold event_of; rewrite H0, H1 in *; cbn [Z.eqb andb] in *;
      try (rewrite app_nil_r; split; assumption);
      (split;
       [ apply alternates_app; [exact IHa|];
         destruct (Nat.even (length (events data cap n)));
         try discriminate; cbn; auto
       | rewrite length_app; cbn [length];
         rewrite Nat.add_1_r, Nat.even_succ, <- Nat.negb_even;
         destruct (Nat.even (length (events data cap n)));
         try discriminate; reflexivity ]).
Qed.

(** C10: the loop's position is always 0 or 1.  A buy bar turns the whole
    cash balance into shares only from position 0, a sell bar turns the
    shares into cash only from position 1; a buy while Long, a sell while
    Flat and a bar without signal leave position, cash and shares as they
    were, so that entries and exits alternate, starting with an entry. *)
Theorem C10_position_alternates
  (data : frame) (initial_capital : num) (k : nat) :
  let st := sim_after data initial_capital k in
  let st' := sim_after data initial_capital (S k) in
  let close := loc (Close data) k in
  (position st = 0 \/ position st = 1)
  /\ (is_buy data k = true -> position st = 0 ->
      position st' = 1
      /\ shares st' = (portfolio_value st / close)%num
      /\ portfolio_value st' = portfolio_value st)
  /\ (is_sell data k = true -> position st = 1 ->
      position st' = 0
      /\ portfolio_value st' = (shares st * close)%num
      /\ shares st' = Fin 0)
  /\ ((is_buy data k = true /\ position st = 1)
      \/ (is_sell data k = true /\ position st = 0)
      \/ (is_buy data k = false /\ is_sell data k = false) ->
      position st' = position st
      /\ portfolio_value st' = portfolio_value st
      /\ shares st' = shares st)
  /\ alternates Enter (events data initial_capital k).
Proof.
  cbv zeta.
  pose proof (buy_not_sell data k) as Hexcl.
  rewrite sim_after_S. unfold sim_step, trade. cbn [position portfolio_value shares].
  fold (is_buy data k) (is_sell data k).
  split; [apply position_01|].
  split; [|split; [|split]].
  - intros Hb H0. rewrite Hb, H0. cbn. auto.
  - intros Hs H1. rewrite Hs, H1.
    destruct (is_buy data k); cbn; auto.
  - intros [[Hb H1]|[[Hs H0]|[Hb Hs]]].
    + rewrite Hb, H1, (Hexcl Hb). cbn. auto.
    + rewrite Hs, H0. destruct (is_buy data k) eqn:Hb.
      * specialize (Hexcl eq_refl). congruence.
      * cbn. auto.
    + rewrite Hb, Hs. cbn. auto.
  - apply events_parity.
Qed.

(** ** Trade count and win rate *)

(** On a series with at least one bar the metrics fail in one case only:
    zero capital and nothing bought. *)
Lemma metrics_outcome (data : frame) (initial_capital : num) :
  Close data <> [] ->
  if never_bought data initial_capital && num_eqb initial_capital (Fin 0)
  then calculate_performance_metrics data initial_capital
       = Raise ZeroDivisionError
  else exists m, calculate_performance_metrics data initial_capital = Ok m.
Proof.
  intros Hne. unfold calculate_performance_metrics, total_return_of.
  destruct (portfolio_values (simulate data initial_capital)) as [|v vs] eqn:Hv.
  - exfalso. apply (f_equal (@length num)) in Hv.
    unfold simulate in Hv. rewrite values_length in Hv.
    destruct (Close data); [congruence|discriminate].
  - cbn [last_value bind].
    destruct (never_bought data initial_capital
              && num_eqb initial_capital (Fin 0)); cbn [bind].
    + reflexivity.
    + eexists. reflexivity.
Qed.

Lemma metrics_total (data : frame) (initial_capital : num) :
  Close data <> [] ->
  num_eqb initial_capital (Fin 0) = false ->
  exists m, calculate_performance_metrics data initial_capital = Ok m.
Proof.
  intros Hne Hcap. pose proof (metrics_outcome data initial_capital Hne) as H.
  rewrite Hcap, andb_false_r in H. exact H.
Qed.

Lemma metrics_fields (data : frame) (initial_capital : num) (m : metrics) :
  calculate_performance_metrics data initial_capital = Ok m ->
  trades m = length (index_where 1 (Position data))
  /\ win_rate m = win_rate_of (Close data) (index_where 1 (Position data))
                              (index_where (-1) (Position data))
  /\ sharpe_ratio m
     = sharpe_of (returns_of (portfolio_values (simulate data initial_capital)))
  /\ max_drawdown m
     = max_drawdown_of (returns_of (portfolio_values (simulate data initial_capital))).
Proof.
  unfold calculate_performance_metrics.
  destruct (last_value _) as [final|e]; cbn [bind]; [|discriminate].
  destruct (total_return_of _ _ _) as [total|e]; cbn [bind]; [|discriminate].
  intros H. injection H as <-. cbn. auto.
Qed.

Lemma metrics_total_return (data : frame) (initial_capital : num) (m : metrics) :
  calculate_performance_metrics data initial_capital = Ok m ->
  portfolio_values (simulate data initial_capital) <> []
  /\ total_return m
     = ((last (portfolio_values (simulate data initial_capital)) NaN
         - initial_capital) / initial_capital * of_Z 100)%num.
Proof.
  unfold calculate_performance_metrics, last_value.
  destruct (portfolio_values (simulate data initial_capital)) as [|v vs];
    cbn [bind]; [discriminate|].
  unfold total_return_of.
  destruct (never_bought data initial_capital && num_eqb initial_capital (Fin 0));
    cbn [bind]; [discriminate|].
  intros H. injection H as <-. split; [discriminate|reflexivity].
Qed.

Lemma index_where_length (v : Z) (P : list (option Z)) :
  length (index_where v P) = length (filter (pos_is v) P).
Proof.
  unfold index_where. rewrite length_map.
  generalize 0%nat. induction P as [|p P IH]; intros s; [reflexivity|].
  cbn [length seq combine filter snd].
  destruct (pos_is v p); cbn [length]; rewrite IH; reflexivity.
Qed.

Lemma of_nat_nonzero (t : nat) :
  (0 < t)%nat -> Qeq_bool (inject_Z (Z.of_nat t)) 0 = false.
Proof.
  intros Ht. destruct (Qeq_bool (inject_Z (Z.of_nat t)) 0) eqn:E; [|reflexivity].
  apply Qeq_bool_eq in E. unfold Qeq in E. cbn in E. lia.
Qed.

Lemma profitable_le_completed (Close : list num) (buys sells : list nat) :
  (profitable_trades Close buys sells
   <= Nat.min (length buys) (length sells))%nat.
Proof.
  unfold profitable_trades.
  etransitivity; [apply filter_length_le|]. rewrite length_seq. reflexivity.
Qed.

(** A count of [p] out of [t], as a percentage. *)
Lemma percentage_bounds (p t : nat) :
  (p <= t)%nat -> (0 < t)%nat ->
  exists q,
    (of_nat p / of_nat t * of_Z 100)%num = Fin q
    /\ (q == inject_Z (Z.of_nat p) / inject_Z (Z.of_nat t) * 100)%Q
    /\ (0 <= q)%Q /\ (q <= 100)%Q.
Proof.
  intros Hpt Ht. unfold of_nat, of_Z, num_div, num_mul.
  rewrite (of_nat_nonzero t Ht). unfold fin.
  eexists. split; [reflexivity|].
  assert (Hq : (Qred (Qred (inject_Z (Z.of_nat p) / inject_Z (Z.of_nat t))
                      * inject_Z 100)
                == inject_Z (Z.of_nat p) / inject_Z (Z.of_nat t) * 100)%Q).
  { rewrite !Qred_correct. reflexivity. }
  split; [exact Hq|].
  rewrite Hq.
  assert (Ht' : (0 < inject_Z (Z.of_nat t))%Q).
  { change 0%Q with (inject_Z 0). rewrite <- Zlt_Qlt. lia. }
  assert (Hp' : (0 <= inject_Z (Z.of_nat p))%Q).
  { change 0%Q with (inject_Z 0). rewrite <- Zle_Qle. lia. }
  assert (Hpt' : (inject_Z (Z.of_nat p) <= inject_Z (Z.of_nat t))%Q).
  { rewrite <- Zle_Qle. lia. }
  assert (H0 : (0 <= inject_Z (Z.of_nat p) / inject_Z (Z.of_nat t))%Q).
  { apply Qle_shift_div_l; [exact Ht'|]. rewrite Qmult_0_l. exact Hp'. }
  assert (H1 : (inject_Z (Z.of_nat p) / inject_Z (Z.of_nat t) <= 1)%Q).
  { apply Qle_shift_div_r; [exact Ht'|]. rewrite Qmult_1_l. exact Hpt'. }
  split; lra.
Qed.

(** C4 (as the code has it): [win_rate] is 100 times the number of paired
    trades (i-th buy with i-th sell) that sold above the buying close,
    divided by [trades], the number of all buy signals, a trailing buy
    without a sell included; it lies between 0 and 100 and is 0 when
    [trades] is 0. *)
Theorem C4_win_rate_over_trade_count
  (data : frame) (initial_capital : num) (m : metrics)
  (Hrun : calculate_performance_metrics data initial_capital = Ok m) :
  let won := profitable_trades (Close data) (index_where 1 (Position data))
                               (index_where (-1) (Position data)) in
  (won <= completed_trades data <= trades m)%nat
  /\ (trades m = 0%nat -> win_rate m = Fin 0)
  /\ exists q,
       win_rate m = Fin q
       /\ (0 <= q)%Q /\ (q <= 100)%Q
       /\ ((0 < trades m)%nat ->
           (q == inject_Z (Z.of_nat won) / inject_Z (Z.of_nat (trades m)) * 100)%Q).
Proof.
  cbv zeta.
  destruct (metrics_fields _ _ _ Hrun) as (Ht & Hw & _).
  rewrite Hw, Ht. unfold completed_trades.
  pose proof (profitable_le_completed (Close data)
                (index_where 1 (Position data))
                (index_where (-1) (Position data))) as Hwon.
  pose proof (Nat.le_min_l (length (index_where 1 (Position data)))
                (length (index_where (-1) (Position data)))) as Hmin.
  split; [split; assumption|].
  unfold win_rate_of.
  destruct (Nat.ltb_spec 0 (length (index_where 1 (Position data)))) as [Hpos|Hz].
  - split; [intros H0; rewrite H0 in Hpos; lia|].
    destruct (percentage_bounds
                (profitable_trades (Close data) (index_where 1 (Position data))
                                   (index_where (-1) (Position data)))
                (length (index_where 1 (Position data))))
      as (q & Hq & Heq & H0 & H100); [lia|exact Hpos|].
    exists q. rewrite Hq. repeat split; auto.
  - split; [reflexivity|].
    exists 0%Q. repeat split; try reflexivity; try lra.
    intros Hpos. lia.
Qed.

Lemma C4_win_rate_over_trade_count_witness :
  exists m,
    calculate_performance_metrics open_frame (of_Z 100000) = Ok m
    /\ (completed_trades open_frame <= trades m)%nat
    /\ exists q, win_rate m = Fin q /\ (0 <= q)%Q /\ (q <= 100)%Q.
Proof.
  destruct (metrics_total open_frame (of_Z 100000)) as [m Hm]; [discriminate|reflexivity|].
  exists m. split; [exact Hm|].
  pose proof (C4_win_rate_over_trade_count open_frame (of_Z 100000) m Hm) as H.
  cbv zeta in H.
  destruct H as ((_ & Hle) & _ & q & Hq & H0 & H100 & _).
  split; [exact Hle|].
  exists q. auto.
Defined.

(** C4, as stated, fails on closes 10, 12, 14, 13, 15 under MA crossover
    1/2: the one completed trade was won (100 percent of the completed
    trades), the reported win rate is 50. *)
Lemma C4_counterexample :
  exists m,
    run_analysis (MA_Crossover 1 2) open_closes (of_Z 100000) = Completed m
    /\ trades m = 2%nat
    /\ completed_trades open_frame = 1%nat
    /\ win_rate m = Fin 50
    /\ realized_win_rate open_frame = Fin 100
    /\ win_rate m <> realized_win_rate open_frame.
Proof.
  eexists. split; [vm_compute; reflexivity|].
  cbn [trades win_rate].
  repeat split; try (vm_compute; reflexivity).
  vm_compute. discriminate.
Qed.

(** ** RSI *)

Lemma nth_error_map_combine {A B C : Type} (f : A * B -> C)
      (xs : list A) (ys : list B) (i : nat) (x : A) (y : B) :
  nth_error xs i = Some x -> nth_error ys i = Some y ->
  nth_error (map f (combine xs ys)) i = Some (f (x, y)).
Proof.
  revert ys i. induction xs as [|a xs IH]; intros [|b ys] [|i] Hx Hy;
    cbn in *; try discriminate.
  - congruence.
  - apply IH; assumption.
Qed.

Lemma calculate_rsi_inv (Close : list num) (period : Z) (rsi : list num) :
  calculate_rsi Close period = Ok rsi ->
  exists gain loss,
    calculate_rsi_gain Close period = Ok gain
    /\ calculate_rsi_loss Close period = Ok loss
    /\ rsi = map (fun gl => rsi_of (fst gl) (snd gl)) (combine gain loss).
Proof.
  unfold calculate_rsi.
  destruct (calculate_rsi_gain Close period) as [gain|e]; cbn [bind]; [|discriminate].
  destruct (calculate_rsi_loss Close period) as [loss|e]; cbn [bind]; [|discriminate].
  intros H. injection H as <-. exists gain, loss. auto.
Qed.

(** *** Rolling windows *)

Lemma rolling_mean_ok (w : Z) (xs : list num) :
  0 <= w -> exists ys, rolling_mean w xs = Ok ys /\ length ys = length xs.
Proof.
  intros Hw. unfold rolling_mean.
  destruct (Z.ltb_spec w 0) as [Hneg|_]; [lia|].
  eexists. split; [reflexivity|]. rewrite length_map, length_seq. reflexivity.
Qed.

Lemma rolling_mean_negative (w : Z) (xs : list num) :
  w < 0 -> rolling_mean w xs = Raise ValueError.
Proof.
  intros Hw. unfold rolling_mean.
  destruct (Z.ltb_spec w 0) as [_|Hpos]; [reflexivity|lia].
Qed.

(** *** Gains and losses are defined together *)

Lemma diff_from_no_infinity (prev : num) (xs : list num) :
  no_infinity prev -> Forall no_infinity xs ->
  Forall no_infinity (diff_from prev xs).
Proof.
  intros Hp Hxs. revert prev Hp.
  induction Hxs as [|x xs Hx _ IH]; intros prev Hp; cbn [diff_from];
    constructor; [|apply IH, Hx].
  destruct x, prev; cbn in Hx, Hp |- *; tauto.
Qed.

Lemma diff_no_infinity (xs : list num) :
  Forall no_infinity xs -> Forall no_infinity (diff xs).
Proof.
  intros H. destruct H as [|x xs Hx Hxs]; cbn [diff]; constructor;
    [exact I|apply diff_from_no_infinity; assumption].
Qed.

Lemma gains_nonnegative (ds : list num) :
  Forall no_infinity ds ->
  Forall nonnegative (where_ (fun d => d >? Fin 0)%num (Fin 0) ds).
Proof.
  intros H. unfold where_. apply Forall_map.
  eapply Forall_impl; [|exact H].
  intros [q| | |] Hq; cbn in Hq |- *; try tauto; try lra.
  destruct (Qle_bool q 0) eqn:E; cbn; [lra|].
  destruct (Qlt_le_dec 0 q) as [Hlt|Hle]; [lra|].
  apply Qle_bool_iff in Hle. congruence.
Qed.

Lemma losses_nonnegative (ds : list num) :
  Forall no_infinity ds ->
  Forall nonnegative
         (map num_opp (where_ (fun d => d <? Fin 0)%num (Fin 0) ds)).
Proof.
  intros H. unfold where_. rewrite map_map. apply Forall_map.
  eapply Forall_impl; [|exact H].
  intros [q| | |] Hq; cbn [num_ltb] in Hq |- *; try tauto;
    try (cbn; lra).
  destruct (Qle_bool 0 q) eqn:E; cbn [negb num_opp fin nonnegative].
  - rewrite Qred_correct. lra.
  - rewrite Qred_correct.
    destruct (Qlt_le_dec q 0) as [Hlt|Hle]; [lra|].
    apply Qle_bool_iff in Hle. congruence.
Qed.

Lemma fold_add_nonnegative (xs : list num) (acc : num) :
  nonnegative acc -> Forall nonnegative xs ->
  nonnegative (fold_left num_add xs acc).
Proof.
  intros Ha Hxs. revert acc Ha.
  induction Hxs as [|x xs Hx _ IH]; intros acc Ha; [exact Ha|].
  cbn [fold_left]. apply IH.
  destruct acc as [a| | |], x as [b| | |]; cbn in Ha, Hx; try tauto.
  cbn [num_add fin nonnegative]. rewrite Qred_correct. lra.
Qed.

Lemma Forall_window {A : Type} (P : A -> Prop) (n m : nat) (xs : list A) :
  Forall P xs -> Forall P (firstn n (skipn m xs)).
Proof.
  intros H. rewrite <- (firstn_skipn m xs) in H.
  apply Forall_app in H. destruct H as [_ H].
  rewrite <- (firstn_skipn n (skipn m xs)) in H.
  apply Forall_app in H. tauto.
Qed.

(** Numbers pass the preparation of a window unchanged. *)
Lemma prep_value_id (P : num -> Prop) (xs : list num) :
  (forall x, P x -> finite x) -> Forall P xs -> map prep_value xs = xs.
Proof.
  intros HP H. induction H as [|x xs Hx _ IH]; [reflexivity|].
  cbn [map]. rewrite IH. specialize (HP x Hx).
  destruct x; cbn in HP |- *; solve [reflexivity | tauto].
Qed.

Lemma nonnegative_finite (x : num) : nonnegative x -> finite x.
Proof. destruct x; cbn; tauto. Qed.

Lemma positive_finite (x : num) : positive x -> finite x.
Proof. destruct x; cbn; tauto. Qed.

Lemma within_finite (lo hi : Q) (x : num) : within lo hi x -> finite x.
Proof. destruct x; cbn; tauto. Qed.

Lemma window_nonnegative (w i : nat) (xs : list num) :
  Forall nonnegative xs -> nonnegative (nsum (window w i xs)).
Proof.
  intros H. unfold nsum, window.
  apply fold_add_nonnegative; [cbn; lra|].
  apply Forall_window, H.
Qed.

(** Whether a rolling mean is defined depends on the window and the bar,
    not on the (finite) entries. *)
Lemma rolling_mean_defined (w : nat) (xs ys : list num) (i : nat) (l : Q) :
  Forall nonnegative xs -> Forall nonnegative ys ->
  rolling_mean_at w xs i = Fin l ->
  exists g, rolling_mean_at w ys i = Fin g /\ (0 <= g)%Q.
Proof.
  intros Hxs Hys. unfold rolling_mean_at.
  rewrite (prep_value_id nonnegative xs nonnegative_finite Hxs).
  rewrite (prep_value_id nonnegative ys nonnegative_finite Hys).
  destruct (S i <? w)%nat; [discriminate|].
  pose proof (window_nonnegative w i xs Hxs) as Hsx.
  pose proof (window_nonnegative w i ys Hys) as Hsy.
  destruct (nsum (window w i xs)) as [a| | |]; cbn in Hsx; try tauto.
  destruct (nsum (window w i ys)) as [b| | |]; cbn in Hsy; try tauto.
  unfold of_nat, of_Z, num_div.
  destruct w as [|w].
  - cbn [Z.of_nat inject_Z]. change (Qeq_bool (0 # 1) 0) with true.
    destruct (sgn a); discriminate.
  - rewrite (of_nat_nonzero (S w)) by lia. intros _.
    eexists. split; [reflexivity|].
    rewrite Qred_correct.
    apply Qle_shift_div_l; [|lra].
    change 0%Q with (inject_Z 0). rewrite <- Zlt_Qlt. lia.
Qed.

Lemma rolling_mean_nth (w : Z) (xs ys : list num) (i : nat) (y : num) :
  rolling_mean w xs = Ok ys -> nth_error ys i = Some y ->
  0 <= w /\ y = rolling_mean_at (Z.to_nat w) xs i.
Proof.
  unfold rolling_mean. destruct (Z.ltb_spec w 0) as [|Hw]; [discriminate|].
  intros H Hy. injection H as <-. split; [exact Hw|].
  rewrite nth_error_map, nth_error_seq in Hy.
  destruct (i <? length xs)%nat; [|discriminate].
  cbn in Hy. congruence.
Qed.

(** On closes without infinities, a bar whose loss mean is a number has a
    gain mean that is a number too, and not below zero: the two cases of
    the RSI at a zero loss mean are the only ones. *)
Lemma zero_loss_gain_defined
      (closes : list num) (period : Z) (gain loss : list num) (i : nat) (l : Q) :
  Forall no_infinity closes ->
  calculate_rsi_gain closes period = Ok gain ->
  calculate_rsi_loss closes period = Ok loss ->
  nth_error loss i = Some (Fin l) ->
  exists g, nth_error gain i = Some (Fin g) /\ (0 <= g)%Q.
Proof.
  intros Hc Hg Hl Hi. unfold calculate_rsi_gain in Hg. unfold calculate_rsi_loss in Hl.
  destruct (rolling_mean_nth _ _ _ _ _ Hl Hi) as [Hw Hli].
  pose proof (diff_no_infinity closes Hc) as Hd.
  destruct (rolling_mean_defined (Z.to_nat period) _ _ i l
              (losses_nonnegative _ Hd) (gains_nonnegative _ Hd) (eq_sym Hli))
    as (g & Hgi & Hg0).
  exists g. split; [|exact Hg0].
  assert (Hlen : (i < length loss)%nat) by (apply nth_error_Some; congruence).
  destruct (rolling_mean_ok period
              (where_ (fun d => d >? Fin 0)%num (Fin 0) (diff closes)) Hw)
    as (gain' & Hg' & Hlg).
  destruct (rolling_mean_ok period
              (map num_opp (where_ (fun d => d <? Fin 0)%num (Fin 0) (diff closes))) Hw)
    as (loss' & Hl' & Hll).
  rewrite Hg in Hg'. injection Hg' as <-.
  rewrite Hl in Hl'. injection Hl' as <-.
  destruct (nth_error gain i) as [y|] eqn:Ey.
  - destruct (rolling_mean_nth _ _ _ _ _ Hg Ey) as [_ ->].
    rewrite Hgi. reflexivity.
  - apply nth_error_None in Ey.
    unfold where_ in Hlg, Hll.
    rewrite length_map in Hlg. rewrite !length_map in Hll. lia.
Qed.

(** A zero divisor: the quotient is an infinity unless the dividend is zero
    too, and the RSI formula absorbs the infinity. *)
Lemma rsi_of_zero_loss (g l : Q) :
  (l == 0)%Q ->
  ((0 < g)%Q -> rsi_of (Fin g) (Fin l) = Fin 100)
  /\ ((g == 0)%Q -> rsi_of (Fin g) (Fin l) = NaN).
Proof.
  intros Hl. unfold rsi_of, num_div.
  apply Qeq_bool_iff in Hl. rewrite Hl. unfold sgn.
  split; intros Hg.
  - assert (H : (Qnum g ?= 0) = Gt).
    { unfold Qlt in Hg. cbn in Hg. apply Z.compare_gt_iff. lia. }
    rewrite H. reflexivity.
  - assert (H : (Qnum g ?= 0) = Eq).
    { unfold Qeq in Hg. cbn in Hg. apply Z.compare_eq_iff. lia. }
    rewrite H. reflexivity.
Qed.

(** C3 (as the code has it): on a bar where the rolling mean of the losses
    is zero, the RSI is 100 when the rolling mean of the gains is positive,
    and NaN when the rolling mean of the gains is zero as well. *)
Theorem C3_rsi_at_zero_loss
  (Close : list num) (period : Z) (gain loss rsi : list num)
  (i : nat) (g l : Q)
  (Hgain : calculate_rsi_gain Close period = Ok gain)
  (Hloss : calculate_rsi_loss Close period = Ok loss)
  (Hrsi : calculate_rsi Close period = Ok rsi)
  (Hg : nth_error gain i = Some (Fin g))
  (Hl : nth_error loss i = Some (Fin l))
  (Hzero : (l == 0)%Q) :
  ((0 < g)%Q -> nth_error rsi i = Some (Fin 100))
  /\ ((g == 0)%Q -> nth_error rsi i = Some NaN).
Proof.
  destruct (calculate_rsi_inv _ _ _ Hrsi) as (gain' & loss' & Hg' & Hl' & ->).
  rewrite Hgain in Hg'. rewrite Hloss in Hl'.
  injection Hg' as <-. injection Hl' as <-.
  rewrite (nth_error_map_combine _ _ _ _ _ _ Hg Hl). cbn [fst snd].
  destruct (rsi_of_zero_loss g l Hzero) as [Hpos Hnul].
  split; intros H; [rewrite (Hpos H)|rewrite (Hnul H)]; reflexivity.
Qed.

Lemma C3_rsi_at_zero_loss_witness :
  calculate_rsi_gain demo_closes 2 = Ok [NaN; Fin 1; Fin 1; Fin 2; Fin 2]
  /\ calculate_rsi_loss demo_closes 2 = Ok [NaN; Fin 0; Fin (1 # 2); Fin (1 # 2); Fin (1 # 2)]
  /\ calculate_rsi demo_closes 2
     = Ok [NaN; Fin 100; Fin (200 # 3); Fin 80; Fin 80]
  /\ nth_error [NaN; Fin 100; Fin (200 # 3); Fin 80; Fin 80] 1 = Some (Fin 100).
Proof.
  assert (Hg : calculate_rsi_gain demo_closes 2
               = Ok [NaN; Fin 1; Fin 1; Fin 2; Fin 2])
    by (vm_compute; reflexivity).
  assert (Hl : calculate_rsi_loss demo_closes 2
               = Ok [NaN; Fin 0; Fin (1 # 2); Fin (1 # 2); Fin (1 # 2)])
    by (vm_compute; reflexivity).
  assert (Hr : calculate_rsi demo_closes 2
               = Ok [NaN; Fin 100; Fin (200 # 3); Fin 80; Fin 80])
    by (vm_compute; reflexivity).
  split; [exact Hg|]. split; [exact Hl|]. split; [exact Hr|].
  apply (proj1 (C3_rsi_at_zero_loss demo_closes 2 _ _ _ 1%nat 1%Q 0%Q
                  Hg Hl Hr eq_refl eq_refl (Qeq_refl 0))).
  reflexivity.
Defined.

(** C3, as stated, fails on closes 10, 10, 10 with period 2: at bars 1 and 2
    the rolling mean of the losses is zero and the RSI is NaN. *)
Lemma C3_counterexample :
  exists loss rsi,
    calculate_rsi_loss still_closes 2 = Ok loss
    /\ calculate_rsi still_closes 2 = Ok rsi
    /\ nth_error loss 2 = Some (Fin 0)
    /\ nth_error rsi 2 = Some NaN
    /\ nth_error rsi 2 <> Some (Fin 100).
Proof.
  eexists. eexists.
  split; [vm_compute; reflexivity|].
  split; [vm_compute; reflexivity|].
  split; [reflexivity|]. split; [reflexivity|]. discriminate.
Qed.

(** ** RSI strategy *)

Lemma num_ltb_asym (x y : num) : (x <? y)%num = true -> (y <? x)%num = false.
Proof.
  destruct x as [a| | |], y as [b| | |]; cbn; try discriminate; try reflexivity.
  intros H. apply negb_true_iff in H. apply negb_false_iff.
  apply Qle_bool_iff.
  destruct (Qlt_le_dec a b) as [Hlt|Hle]; [apply Qlt_le_weak; exact Hlt|].
  apply Qle_bool_iff in Hle. congruence.
Qed.

Lemma rsi_strategy_inv (closes : list num) (period oversold overbought : Z)
      (d : frame) :
  rsi_strategy closes period oversold overbought = Ok d ->
  exists rsi,
    calculate_rsi closes period = Ok rsi
    /\ Signal d = map (rsi_signal_at oversold overbought) rsi
    /\ Position d = zdiff (Signal d)
    /\ Close d = closes.
Proof.
  unfold rsi_strategy.
  destruct (calculate_rsi closes period) as [rsi|e]; cbn [bind]; [|discriminate].
  intros H. injection H as <-. exists rsi. cbn. auto.
Qed.

Lemma rsi_signal_nth (closes : list num) (period oversold overbought : Z)
      (d : frame) (rsi : list num) (i : nat) (r : num) :
  rsi_strategy closes period oversold overbought = Ok d ->
  calculate_rsi closes period = Ok rsi ->
  nth_error rsi i = Some r ->
  nth_error (Signal d) i = Some (rsi_signal_at oversold overbought r).
Proof.
  intros Hd Hrsi Hr.
  destruct (rsi_strategy_inv _ _ _ _ _ Hd) as (rsi' & Hrsi' & HS & _).
  rewrite Hrsi in Hrsi'. injection Hrsi' as <-.
  rewrite HS. apply map_nth_error. exact Hr.
Qed.

(** C2 (as the code has it): the signal of a bar is decided by that bar's
    RSI alone; on a bar whose RSI lies strictly between the thresholds it is
    0 (Flat), whatever the signal of the previous bar was. *)
Theorem C2_rsi_signal_between_thresholds
  (Close : list num) (period oversold overbought : Z)
  (d : frame) (rsi : list num) (i : nat) (r : num)
  (Hd : rsi_strategy Close period oversold overbought = Ok d)
  (Hrsi : calculate_rsi Close period = Ok rsi)
  (Hr : nth_error rsi i = Some r) :
  nth_error (Signal d) i = Some (rsi_signal_at oversold overbought r)
  /\ ((of_Z oversold <? r)%num = true ->
      (r <? of_Z overbought)%num = true ->
      nth_error (Signal d) i = Some 0).
Proof.
  pose proof (rsi_signal_nth _ _ _ _ _ _ _ _ Hd Hrsi Hr) as Hi.
  split; [exact Hi|].
  intros Hlo Hhi. rewrite Hi. unfold rsi_signal_at, num_gtb.
  rewrite (num_ltb_asym _ _ Hlo), (num_ltb_asym _ _ Hhi). reflexivity.
Qed.

Lemma C2_rsi_signal_between_thresholds_witness :
  exists d rsi,
    rsi_strategy dip_closes 2 30 70 = Ok d
    /\ calculate_rsi dip_closes 2 = Ok rsi
    /\ nth_error rsi 3 = Some (Fin 50)
    /\ nth_error (Signal d) 3 = Some 0.
Proof.
  eexists. eexists.
  assert (Hd : rsi_strategy dip_closes 2 30 70
               = Ok {| Close := dip_closes; Signal := [0; 1; 1; 0];
                       Position := [None; Some 1; Some 0; Some (-1)] |})
    by (vm_compute; reflexivity).
  assert (Hr : calculate_rsi dip_closes 2 = Ok [NaN; Fin 0; Fin 0; Fin 50])
    by (vm_compute; reflexivity).
  split; [exact Hd|]. split; [exact Hr|]. split; [reflexivity|].
  apply (proj2 (C2_rsi_signal_between_thresholds dip_closes 2 30 70 _ _
                  3%nat (Fin 50) Hd Hr eq_refl));
    reflexivity.
Defined.

(** C2, as stated, fails on closes 10, 9, 8, 9 with period 2 and thresholds
    30/70: bar 1 is decidable (RSI 0), bar 2 has signal 1, and bar 3, whose
    RSI 50 lies strictly between the thresholds, has signal 0. *)
Lemma C2_counterexample :
  exists d rsi,
    rsi_strategy dip_closes 2 30 70 = Ok d
    /\ calculate_rsi dip_closes 2 = Ok rsi
    /\ nth_error rsi 1 = Some (Fin 0)
    /\ nth_error rsi 3 = Some (Fin 50)
    /\ (of_Z 30 <? Fin 50)%num = true
    /\ (Fin 50 <? of_Z 70)%num = true
    /\ nth_error (Signal d) 2 = Some 1
    /\ nth_error (Signal d) 3 = Some 0
    /\ nth_error (Signal d) 3 <> nth_error (Signal d) 2.
Proof.
  eexists. eexists.
  split; [vm_compute; reflexivity|].
  split; [vm_compute; reflexivity|].
  repeat (split; [reflexivity|]). discriminate.
Qed.

(** ** Signal values *)

Lemma ma_crossover_inv (closes : list num) (short_period long_period : Z)
      (d : frame) :
  ma_crossover_strategy closes short_period long_period = Ok d ->
  exists ma_short ma_long,
    calculate_ma closes short_period = Ok ma_short
    /\ calculate_ma closes long_period = Ok ma_long
    /\ Signal d = ma_signal short_period ma_short ma_long
    /\ Position d = zdiff (Signal d)
    /\ Close d = closes.
Proof.
  unfold ma_crossover_strategy.
  destruct (calculate_ma closes short_period) as [ms|e]; cbn [bind]; [|discriminate].
  destruct (calculate_ma closes long_period) as [ml|e]; cbn [bind]; [|discriminate].
  destruct (Z.of_nat (length closes) <? short_period); [discriminate|].
  intros H. injection H as <-. exists ms, ml. cbn. auto.
Qed.

(** C6 (as the code has it): the MA crossover signal takes the values 0 and
    1 only; the RSI signal takes the values -1, 0 and 1, and it is -1
    exactly on the bars whose RSI is above the overbought threshold. *)
Theorem C6_signal_values (Close : list num) :
  (forall short_period long_period d,
      ma_crossover_strategy Close short_period long_period = Ok d ->
      Forall (fun x => x = 0 \/ x = 1) (Signal d))
  /\ (forall period oversold overbought d,
         rsi_strategy Close period oversold overbought = Ok d ->
         Forall (fun x => x = -1 \/ x = 0 \/ x = 1) (Signal d))
  /\ (forall period oversold overbought d rsi i r,
         rsi_strategy Close period oversold overbought = Ok d ->
         calculate_rsi Close period = Ok rsi ->
         nth_error rsi i = Some r ->
         (nth_error (Signal d) i = Some (-1)
          <-> (r >? of_Z overbought)%num = true)).
Proof.
  split; [|split].
  - intros sp lp d Hd.
    destruct (ma_crossover_inv _ _ _ _ Hd) as (ms & ml & _ & _ & -> & _).
    unfold ma_signal. apply Forall_map, Forall_forall. intros t _.
    unfold ma_signal_at.
    destruct (Z.of_nat (fst t) <? sp); [left; reflexivity|].
    destruct (fst (snd t) >? snd (snd t))%num; [right|left]; reflexivity.
  - intros p os ob d Hd.
    destruct (rsi_strategy_inv _ _ _ _ _ Hd) as (rsi & _ & -> & _).
    apply Forall_map, Forall_forall. intros r _.
    unfold rsi_signal_at.
    destruct (r >? of_Z ob)%num; [left; reflexivity|].
    destruct (r <? of_Z os)%num; right; [right|left]; reflexivity.
  - intros p os ob d rsi i r Hd Hrsi Hr.
    pose proof (rsi_signal_nth _ _ _ _ _ _ _ _ Hd Hrsi Hr) as Hi.
    rewrite Hi. unfold rsi_signal_at.
    destruct (r >? of_Z ob)%num; [split; reflexivity|].
    destruct (r <? of_Z os)%num; split; discriminate.
Qed.

(** C6, as stated, fails on closes 10, 9, 8, 18 under the RSI strategy with
    period 2 and thresholds 30/70: the signal of bar 3 is -1, and the move
    from 1 to -1 there (Position -2) makes the loop, Long since bar 1,
    neither exit nor enter. *)
Lemma C6_counterexample :
  exists d,
    rsi_strategy jump_closes 2 30 70 = Ok d
    /\ Signal d = [0; 1; 1; -1]
    /\ Position d = [None; Some 1; Some 0; Some (-2)]
    /\ ~ Forall (fun x => x = 0 \/ x = 1) (Signal d)
    /\ events d (of_Z 100000) 4 = [Enter]
    /\ position (simulate d (of_Z 100000)) = 1.
Proof.
  eexists. split; [vm_compute; reflexivity|].
  cbn [Signal Position].
  split; [reflexivity|]. split; [reflexivity|].
  split.
  - intros H. rewrite Forall_forall in H.
    assert (Hin : In (-1) [0; 1; 1; -1]) by (cbn; auto).
    destruct (H _ Hin); discriminate.
  - split; vm_compute; reflexivity.
Qed.

(** ** Parameters *)

Lemma apply_strategy_ok (s : strategy) (closes : list num) :
  periods_accepted s (length closes) ->
  exists d, apply_strategy s closes = Ok d /\ Close d = closes.
Proof.
  destruct s as [sp lp|p os ob]; cbn [periods_accepted apply_strategy].
  - intros [[Hs Hn] Hl].
    unfold ma_crossover_strategy, calculate_ma.
    destruct (rolling_mean_ok sp closes Hs) as (ms & -> & _).
    destruct (rolling_mean_ok lp closes Hl) as (ml & -> & _).
    cbn [bind].
    destruct (Z.ltb_spec (Z.of_nat (length closes)) sp) as [|_]; [lia|].
    eexists. split; reflexivity.
  - intros Hp.
    unfold rsi_strategy, calculate_rsi, calculate_rsi_gain, calculate_rsi_loss.
    destruct (rolling_mean_ok p
                (where_ (fun d => d >? Fin 0)%num (Fin 0) (diff closes)) Hp)
      as (g & -> & _).
    destruct (rolling_mean_ok p
                (map num_opp (where_ (fun d => d <? Fin 0)%num (Fin 0) (diff closes))) Hp)
      as (l & -> & _).
    cbn [bind]. eexists. split; reflexivity.
Qed.

(** A negative period and an MA signal slice beyond the last bar are what
    the strategies refuse. *)
Lemma apply_strategy_refused (s : strategy) (closes : list num) :
  ~ periods_accepted s (length closes) ->
  apply_strategy s closes = Raise ValueError.
Proof.
  destruct s as [sp lp|p os ob]; cbn [periods_accepted apply_strategy]; intros Hn.
  - unfold ma_crossover_strategy, calculate_ma.
    destruct (Z.lt_ge_cases sp 0) as [Hs|Hs].
    + rewrite (rolling_mean_negative sp closes Hs). reflexivity.
    + destruct (rolling_mean_ok sp closes ltac:(lia)) as (ms & -> & _).
      cbn [bind].
      destruct (Z.lt_ge_cases lp 0) as [Hl|Hl].
      * rewrite (rolling_mean_negative lp closes Hl). reflexivity.
      * destruct (rolling_mean_ok lp closes ltac:(lia)) as (ml & -> & _).
        cbn [bind].
        destruct (Z.ltb_spec (Z.of_nat (length closes)) sp) as [_|Hle];
          [reflexivity|lia].
  - unfold rsi_strategy, calculate_rsi, calculate_rsi_gain.
    rewrite rolling_mean_negative by lia. reflexivity.
Qed.




(** ** Sharpe ratio *)






(** C7: on the two bars 10, 11 the run completes and the Sharpe ratio it
    reports is NaN (one return, so no standard deviation; the guard
    [std != 0] lets NaN through). *)
Theorem C7_sharpe_nan_on_two_bars :
  exists m,
    run_analysis (MA_Crossover 1 2) two_closes (of_Z 100000) = Completed m
    /\ portfolio_values
         (simulate {| Close := two_closes; Signal := [0; 1];
                      Position := [None; Some 1] |} (of_Z 100000))
       = [Fin 100000; Fin 100000]
    /\ series_std (returns_of [Fin 100000; Fin 100000]) = NaN
    /\ sharpe_ratio m = NaN.
Proof.
  eexists. split; [vm_compute; reflexivity|].
  cbn [sharpe_ratio].
  repeat split; vm_compute; reflexivity.
Qed.

(** ** Maximum drawdown *)

Lemma positive_nonzero (b : Q) : (0 < b)%Q -> Qeq_bool b 0 = false.
Proof.
  intros Hb. destruct (Qeq_bool b 0) eqn:E; [|reflexivity].
  apply Qeq_bool_eq in E. lra.
Qed.




Section PositiveRun.

Variable data : frame.
Variable initial_capital : num.
Hypothesis closes_positive : Forall positive (Close data).
Hypothesis capital_positive : positive initial_capital.



End PositiveRun.


















(** * Further properties of the code *)

(** ** Arithmetic helpers *)

Lemma fin_ext (q r : Q) : (q == r)%Q -> fin q = fin r.
Proof. intros H. unfold fin. f_equal. apply Qred_complete, H. Qed.

Lemma fin_zero (q : Q) : (q == 0)%Q -> fin q = Fin 0.
Proof. intros H. rewrite (fin_ext q 0 H). reflexivity. Qed.

Lemma num_ltb_irrefl (x : num) : (x <? x)%num = false.
Proof.
  destruct x as [a| | |]; cbn; try reflexivity.
  apply negb_false_iff, Qle_bool_iff, Qle_refl.
Qed.

Lemma num_ltb_fin (a b : Q) : (Fin a <? Fin b)%num = true <-> (a < b)%Q.
Proof.
  cbn. rewrite negb_true_iff. split.
  - intros H. destruct (Qlt_le_dec a b) as [Hlt|Hle]; [exact Hlt|].
    apply Qle_bool_iff in Hle. congruence.
  - intros H. destruct (Qle_bool b a) eqn:E; [|reflexivity].
    apply Qle_bool_iff in E. lra.
Qed.

Lemma of_nat_positive (n : nat) : (0 < n)%nat -> (0 < inject_Z (Z.of_nat n))%Q.
Proof.
  intros H. change 0%Q with (inject_Z 0). rewrite <- Zlt_Qlt. lia.
Qed.

(** A sum of [n] numbers between [lo] and [hi]. *)
Lemma fold_add_within (lo hi : Q) (xs : list num) (a : Q) :
  Forall (within lo hi) xs ->
  exists s,
    fold_left num_add xs (Fin a) = Fin s
    /\ (a + inject_Z (Z.of_nat (length xs)) * lo <= s)%Q
    /\ (s <= a + inject_Z (Z.of_nat (length xs)) * hi)%Q.
Proof.
  intros H. revert a. induction H as [|x xs Hx _ IH]; intros a.
  - exists a. cbn [fold_left length Z.of_nat]. change (inject_Z 0) with 0%Q.
    split; [reflexivity|]. split; lra.
  - destruct x as [q| | |]; cbn [within] in Hx; try tauto.
    cbn [fold_left num_add]. unfold fin.
    destruct (IH (Qred (a + q))) as (s & Hs & Hlo & Hhi).
    exists s. split; [exact Hs|].
    rewrite Qred_correct in Hlo, Hhi.
    cbn [length]. rewrite Nat2Z.inj_succ, <- Z.add_1_r, inject_Z_plus.
    change (inject_Z 1) with 1%Q. split; lra.
Qed.

Lemma window_length (w i : nat) (xs : list num) :
  (w <= S i)%nat -> (i < length xs)%nat -> length (window w i xs) = w.
Proof.
  intros Hw Hi. unfold window.
  rewrite length_firstn, length_skipn. lia.
Qed.

Lemma rolling_mean_at_within (lo hi : Q) (w i : nat) (xs : list num) :
  Forall (within lo hi) xs -> (0 < w)%nat -> (w <= S i)%nat ->
  (i < length xs)%nat ->
  within lo hi (rolling_mean_at w xs i).
Proof.
  intros Hxs Hw Hwi Hi. unfold rolling_mean_at.
  rewrite (prep_value_id (within lo hi) xs (within_finite lo hi) Hxs).
  destruct (Nat.ltb_spec (S i) w) as [|_]; [lia|].
  destruct (fold_add_within lo hi (window w i xs) 0
              (Forall_window _ _ _ _ Hxs)) as (s & Hs & Hlo & Hhi).
  unfold nsum. rewrite Hs. rewrite window_length in Hlo, Hhi by assumption.
  unfold of_nat, of_Z, num_div. rewrite (of_nat_nonzero w Hw).
  unfold fin. cbn [within]. rewrite Qred_correct.
  pose proof (of_nat_positive w Hw) as Hpos.
  split.
  - apply Qle_shift_div_l; [exact Hpos|]. lra.
  - apply Qle_shift_div_r; [exact Hpos|]. lra.
Qed.

(** ** Moving average *)

(** X1: with a period of at least 1 and closes between [lo] and [hi], the
    moving average has one entry per bar; the entry is NaN on the first
    [period - 1] bars and a number between [lo] and [hi] on all later
    bars. *)
Theorem ma_warm_up_and_bounds
  (closes : list num) (period : Z) (lo hi : Q) (ma : list num)
  (Hperiod : 1 <= period)
  (Hcloses : Forall (within lo hi) closes)
  (Hma : calculate_ma closes period = Ok ma) :
  length ma = length closes
  /\ forall i x,
       nth_error ma i = Some x ->
       if Z.of_nat (S i) <? period then x = NaN else within lo hi x.
Proof.
  unfold calculate_ma in Hma.
  destruct (rolling_mean_ok period closes ltac:(lia)) as (ma' & Hma' & Hlen).
  rewrite Hma in Hma'. injection Hma' as <-.
  split; [exact Hlen|].
  intros i x Hx.
  destruct (rolling_mean_nth _ _ _ _ _ Hma Hx) as [_ ->].
  assert (Hi : (i < length closes)%nat).
  { rewrite <- Hlen. apply nth_error_Some. congruence. }
  destruct (Z.ltb_spec (Z.of_nat (S i)) period) as [Hlt|Hge].
  - unfold rolling_mean_at.
    destruct (Nat.ltb_spec (S i) (Z.to_nat period)) as [_|Hn]; [reflexivity|lia].
  - apply rolling_mean_at_within; try assumption; lia.
Qed.

Lemma ma_warm_up_and_bounds_witness :
  1 <= 2
  /\ Forall (within 10 15) demo_closes
  /\ calculate_ma demo_closes 2 = Ok [NaN; Fin 11; Fin (23 # 2); Fin 13; Fin (29 # 2)]
  /\ within 10 15 (Fin (23 # 2)).
Proof.
  assert (Hp : 1 <= 2) by lia.
  assert (Hc : Forall (within 10 15) demo_closes).
  { repeat (constructor; [cbn; split; discriminate|]). constructor. }
  assert (Hm : calculate_ma demo_closes 2
               = Ok [NaN; Fin 11; Fin (23 # 2); Fin 13; Fin (29 # 2)])
    by (vm_compute; reflexivity).
  split; [exact Hp|]. split; [exact Hc|]. split; [exact Hm|].
  exact (proj2 (ma_warm_up_and_bounds demo_closes 2 10 15 _ Hp Hc Hm)
               2%nat (Fin (23 # 2)) eq_refl).
Defined.

(** ** Runs without a trade *)

Lemma nsum_zeros (n : nat) : nsum (repeat (Fin 0) n) = Fin 0.
Proof.
  unfold nsum. induction n as [|n IH]; [reflexivity|]. cbn [repeat fold_left].
  exact IH.
Qed.

Lemma zero_over_count (n : nat) : (0 < n)%nat -> (Fin 0 / of_nat n)%num = Fin 0.
Proof.
  intros Hn. unfold of_nat, of_Z, num_div. rewrite (of_nat_nonzero n Hn).
  apply fin_zero. unfold Qdiv. apply Qmult_0_l.
Qed.

Lemma map_on_repeat {A B : Type} (f : A -> B) (x : A) (n : nat) :
  map f (repeat x n) = repeat (f x) n.
Proof. induction n as [|n IH]; cbn; [|rewrite IH]; reflexivity. Qed.

Lemma dropna_zeros (n : nat) : dropna (repeat (Fin 0) n) = repeat (Fin 0) n.
Proof.
  unfold dropna. induction n as [|n IH]; [reflexivity|].
  cbn [repeat filter isna negb]. rewrite IH. reflexivity.
Qed.

(** No move, no risk: the standard deviation of equal returns is 0 and the
    guard of the Sharpe ratio answers 0. *)
Lemma sharpe_of_zeros (n : nat) :
  (2 <= n)%nat -> sharpe_of (repeat (Fin 0) n) = Fin 0.
Proof.
  intros Hn. unfold sharpe_of.
  assert (Hstd : series_std (repeat (Fin 0) n) = Fin 0).
  { unfold series_std. cbv zeta. rewrite dropna_zeros, repeat_length.
    destruct (Nat.leb_spec n 1) as [|_]; [lia|].
    rewrite nsum_zeros, zero_over_count by lia.
    rewrite map_on_repeat.
    change ((Fin 0 - Fin 0) * (Fin 0 - Fin 0))%num with (Fin 0).
    rewrite nsum_zeros, zero_over_count by lia. reflexivity. }
  rewrite Hstd. reflexivity.
Qed.

Lemma cumprod_ones (n : nat) :
  cumprod_from (Fin 1) (repeat (Fin 1) n) = repeat (Fin 1) n.
Proof.
  induction n as [|n IH]; [reflexivity|]. cbn [repeat cumprod_from].
  change (Fin 1 * Fin 1)%num with (Fin 1). rewrite IH. reflexivity.
Qed.

Lemma expanding_max_ones (n : nat) (acc : num) :
  acc = NaN \/ acc = Fin 1 ->
  expanding_max_from acc (repeat (Fin 1) n) = repeat (Fin 1) n.
Proof.
  revert acc. induction n as [|n IH]; intros acc Hacc; [reflexivity|].
  cbn [repeat expanding_max_from prep_value].
  assert (H1 : nan_max acc (Fin 1) = Fin 1) by (destruct Hacc as [-> | ->]; reflexivity).
  rewrite H1, IH by (right; reflexivity). reflexivity.
Qed.

Lemma combine_repeat {A B : Type} (x : A) (y : B) (n : nat) :
  combine (repeat x n) (repeat y n) = repeat (x, y) n.
Proof. induction n as [|n IH]; cbn; [|rewrite IH]; reflexivity. Qed.

Lemma fold_min_zeros (n : nat) :
  fold_left nan_min (repeat (Fin 0) n) (Fin 0) = Fin 0.
Proof. induction n as [|n IH]; [reflexivity|]. cbn [repeat fold_left]. exact IH. Qed.

Lemma max_drawdown_of_zeros (n : nat) :
  (1 <= n)%nat -> max_drawdown_of (repeat (Fin 0) n) = Fin 0.
Proof.
  intros Hn. unfold max_drawdown_of, drawdown_of, cumprod, expanding_max.
  rewrite map_on_repeat. change (of_Z 1 + Fin 0)%num with (Fin 1).
  rewrite cumprod_ones, expanding_max_ones by (left; reflexivity).
  rewrite combine_repeat, map_on_repeat. cbn [fst snd].
  change ((Fin 1 - Fin 1) / Fin 1)%num with (Fin 0).
  destruct n as [|n]; [lia|]. unfold series_min. cbn [repeat fold_left].
  change (nan_min NaN (Fin 0)) with (Fin 0).
  rewrite fold_min_zeros. reflexivity.
Qed.

Lemma ratio_to_itself (c : Q) :
  ~ (c == 0)%Q -> (Fin c / Fin c - of_Z 1)%num = Fin 0.
Proof.
  intros Hc. unfold num_div.
  destruct (Qeq_bool c 0) eqn:E; [apply Qeq_bool_eq in E; tauto|].
  rewrite (fin_ext (c / c) 1) by (field; exact Hc). reflexivity.
Qed.

Lemma pct_from_constant (c : Q) (n : nat) :
  ~ (c == 0)%Q -> pct_from (Fin c) (repeat (Fin c) n) = repeat (Fin 0) n.
Proof.
  intros Hc. induction n as [|n IH]; [reflexivity|].
  cbn [repeat pct_from]. rewrite ratio_to_itself by exact Hc.
  rewrite IH. reflexivity.
Qed.

Lemma returns_of_constant (c : Q) (n : nat) :
  ~ (c == 0)%Q -> returns_of (repeat (Fin c) (S n)) = repeat (Fin 0) n.
Proof.
  intros Hc. unfold returns_of. cbn [repeat pct_change dropna filter isna negb].
  rewrite pct_from_constant by exact Hc. apply dropna_zeros.
Qed.

Lemma no_gain_on_capital (c : Q) :
  ~ (c == 0)%Q -> ((Fin c - Fin c) / Fin c * of_Z 100)%num = Fin 0.
Proof.
  intros Hc. change (Fin c - Fin c)%num with (fin (c + Qred (- c))).
  rewrite (fin_zero (c + Qred (- c))) by (rewrite Qred_correct; lra).
  unfold num_div.
  destruct (Qeq_bool c 0) eqn:E; [apply Qeq_bool_eq in E; tauto|].
  rewrite (fin_zero (0 / c)) by (unfold Qdiv; apply Qmult_0_l).
  reflexivity.
Qed.

(** Without a buy signal the loop never leaves its initial state. *)
Lemma sim_without_buys (data : frame) (initial_capital : num) (k : nat) :
  index_where 1 (Position data) = [] ->
  sim_after data initial_capital k
  = {| portfolio_value := initial_capital; position := 0; shares := Fin 0;
       portfolio_values := repeat initial_capital k |}.
Proof.
  intros Hnone. induction k as [|k IH]; [reflexivity|].
  rewrite sim_after_S, IH, Hnone. unfold sim_step, trade.
  cbn [mem existsb andb position Z.eqb]. rewrite andb_false_r.
  cbn [portfolio_value position shares portfolio_values mark Z.eqb].
  f_equal. rewrite <- repeat_cons. reflexivity.
Qed.

(** X2: a run that counts no trade ([trades] is 0) on a non-zero capital
    keeps every portfolio value at the initial capital and reports win rate
    0 and total return 0; its maximum drawdown is 0 from two bars on and
    its Sharpe ratio is 0 from three bars on. *)
Theorem run_without_trades
  (data : frame) (c : Q) (m : metrics)
  (Hcapital : ~ (c == 0)%Q)
  (Hrun : calculate_performance_metrics data (Fin c) = Ok m)
  (Hnone : trades m = 0%nat) :
  portfolio_values (simulate data (Fin c))
  = repeat (Fin c) (length (Close data))
  /\ win_rate m = Fin 0
  /\ total_return m = Fin 0
  /\ ((2 <= length (Close data))%nat -> max_drawdown m = Fin 0)
  /\ ((3 <= length (Close data))%nat -> sharpe_ratio m = Fin 0).
Proof.
  destruct (metrics_fields _ _ _ Hrun) as (Ht & Hw & Hs & Hd).
  assert (Hbuys : index_where 1 (Position data) = []).
  { apply length_zero_iff_nil. congruence. }
  assert (Hvalues : portfolio_values (simulate data (Fin c))
                    = repeat (Fin c) (length (Close data))).
  { unfold simulate. rewrite sim_without_buys by exact Hbuys. reflexivity. }
  split; [exact Hvalues|].
  split; [rewrite Hw, Hbuys; reflexivity|].
  split.
  - destruct (metrics_total_return _ _ _ Hrun) as [Hne ->].
    rewrite Hvalues in Hne |- *.
    destruct (length (Close data)) as [|n]; [exfalso; apply Hne; reflexivity|].
    assert (Hlast : last (repeat (Fin c) (S n)) NaN = Fin c).
    { clear. induction n as [|n IH]; [reflexivity|].
      change (repeat (Fin c) (S (S n))) with (Fin c :: repeat (Fin c) (S n)).
      cbn [last]. exact IH. }
    rewrite Hlast. apply no_gain_on_capital, Hcapital.
  - rewrite Hd, Hs, Hvalues.
    destruct (length (Close data)) as [|n].
    + split; intros; lia.
    + rewrite returns_of_constant by exact Hcapital.
      split; intros Hn.
      * apply max_drawdown_of_zeros. lia.
      * apply sharpe_of_zeros. lia.
Qed.

Lemma run_without_trades_witness :
  ~ (100000 == 0)%Q
  /\ exists m,
       calculate_performance_metrics
         {| Close := demo_closes; Signal := [0; 0; 0; 0; 0];
            Position := [None; Some 0; Some 0; Some 0; Some 0] |} (Fin 100000)
       = Ok m
       /\ trades m = 0%nat
       /\ total_return m = Fin 0
       /\ win_rate m = Fin 0.
Proof.
  assert (Hc : ~ (100000 == 0)%Q) by discriminate.
  split; [exact Hc|].
  destruct (metrics_total
              {| Close := demo_closes; Signal := [0; 0; 0; 0; 0];
                 Position := [None; Some 0; Some 0; Some 0; Some 0] |}
              (Fin 100000)) as [m Hm]; [discriminate|reflexivity|].
  exists m. split; [exact Hm|].
  assert (Ht : trades m = 0%nat).
  { destruct (metrics_fields _ _ _ Hm) as (Ht & _). rewrite Ht. reflexivity. }
  split; [exact Ht|].
  destruct (run_without_trades _ 100000 m Hc Hm Ht) as (_ & Hw & Hr & _).
  split; assumption.
Defined.

(** ** What every strategy hands to the simulator *)

Lemma diff_from_length (prev : num) (xs : list num) :
  length (diff_from prev xs) = length xs.
Proof.
  revert prev. induction xs as [|x xs IH]; intros prev; cbn; [|rewrite IH];
    reflexivity.
Qed.

Lemma diff_length (xs : list num) : length (diff xs) = length xs.
Proof. destruct xs; cbn; [|rewrite diff_from_length]; reflexivity. Qed.

Lemma zdiff_from_length (prev : Z) (xs : list Z) :
  length (zdiff_from prev xs) = length xs.
Proof.
  revert prev. induction xs as [|x xs IH]; intros prev; cbn; [|rewrite IH];
    reflexivity.
Qed.

Lemma zdiff_length (xs : list Z) : length (zdiff xs) = length xs.
Proof. destruct xs; cbn; [|rewrite zdiff_from_length]; reflexivity. Qed.

Lemma apply_strategy_inv (s : strategy) (closes : list num) (d : frame) :
  apply_strategy s closes = Ok d ->
  Close d = closes
  /\ Position d = zdiff (Signal d)
  /\ length (Signal d) = length closes.
Proof.
  destruct s as [sp lp|p os ob]; cbn [apply_strategy]; intros Hd.
  - destruct (ma_crossover_inv _ _ _ _ Hd) as (ms & ml & Hs & Hl & HS & HP & HC).
    split; [exact HC|]. split; [exact HP|].
    unfold calculate_ma, rolling_mean in Hs, Hl.
    destruct (sp <? 0); [discriminate|]. destruct (lp <? 0); [discriminate|].
    injection Hs as <-. injection Hl as <-.
    rewrite HS. unfold ma_signal.
    rewrite length_map, !length_combine, !length_map, !length_seq. lia.
  - destruct (rsi_strategy_inv _ _ _ _ _ Hd) as (rsi & Hr & HS & HP & HC).
    split; [exact HC|]. split; [exact HP|].
    destruct (calculate_rsi_inv _ _ _ Hr) as (g & l & Hg & Hl & ->).
    unfold calculate_rsi_gain, calculate_rsi_loss, rolling_mean in Hg, Hl.
    destruct (p <? 0); [discriminate|].
    injection Hg as <-. injection Hl as <-.
    rewrite HS, !length_map, length_combine, !length_map, !length_seq.
    unfold where_. rewrite !length_map, diff_length. lia.
Qed.

(** X3: whatever the strategy and its parameters, the frame it returns has
    one signal and one position change per bar, the first position change
    is undefined, so the first bar is neither a buy nor a sell, and the
    first portfolio value is the initial capital. *)
Theorem first_bar_never_trades
  (s : strategy) (closes : list num) (d : frame) (initial_capital : num)
  (Hbars : closes <> [])
  (Hd : apply_strategy s closes = Ok d) :
  length (Signal d) = length closes
  /\ length (Position d) = length closes
  /\ nth_error (Position d) 0 = Some None
  /\ is_buy d 0 = false
  /\ is_sell d 0 = false
  /\ nth_error (portfolio_values (simulate d initial_capital)) 0
     = Some initial_capital.
Proof.
  destruct (apply_strategy_inv _ _ _ Hd) as (HC & HP & HS).
  assert (Hfirst : nth_error (Position d) 0 = Some None).
  { rewrite HP. destruct (Signal d) as [|x xs]; [|reflexivity].
    destruct closes; [congruence|discriminate]. }
  assert (Hb : is_buy d 0 = false).
  { unfold is_buy. rewrite mem_index_where, Hfirst. reflexivity. }
  assert (Hs : is_sell d 0 = false).
  { unfold is_sell. rewrite mem_index_where, Hfirst. reflexivity. }
  split; [exact HS|]. split; [rewrite HP, zdiff_length; exact HS|].
  split; [exact Hfirst|]. split; [exact Hb|]. split; [exact Hs|].
  assert (Hlen : (0 < length (Close d))%nat).
  { rewrite HC. destruct closes; [congruence|cbn; lia]. }
  rewrite (nth_error_nth' _ NaN)
    by (unfold simulate; rewrite values_length; exact Hlen).
  unfold simulate. rewrite values_nth by exact Hlen.
  rewrite sim_after_S. unfold sim_step, trade, mark.
  fold (is_buy d 0) (is_sell d 0). rewrite Hb, Hs. reflexivity.
Qed.

Lemma first_bar_never_trades_witness :
  demo_closes <> []
  /\ apply_strategy (MA_Crossover 1 2) demo_closes = Ok demo_frame
  /\ nth_error (portfolio_values (simulate demo_frame (of_Z 100000))) 0
     = Some (of_Z 100000).
Proof.
  assert (Hb : demo_closes <> []) by discriminate.
  assert (Hd : apply_strategy (MA_Crossover 1 2) demo_closes = Ok demo_frame)
    by (vm_compute; reflexivity).
  split; [exact Hb|]. split; [exact Hd|].
  exact (proj2 (proj2 (proj2 (proj2 (proj2
    (first_bar_never_trades _ _ _ (of_Z 100000) Hb Hd)))))).
Defined.

(** ** MA crossover with equal periods *)

Lemma combine_diag {A : Type} (xs : list A) (a b : A) :
  In (a, b) (combine xs xs) -> a = b.
Proof.
  induction xs as [|x xs IH]; cbn; [tauto|].
  intros [H|H]; [congruence|auto].
Qed.

Lemma zdiff_from_zeros (v : Z) (xs : list Z) :
  v <> 0 -> Forall (fun x => x = 0) xs ->
  filter (pos_is v) (zdiff_from 0 xs) = [].
Proof.
  intros Hv H. induction H as [|x xs -> _ IH]; [reflexivity|].
  cbn [zdiff_from filter pos_is]. rewrite IH.
  destruct (Z.eqb_spec (0 - 0) v); [lia|reflexivity].
Qed.

Lemma index_where_zeros (v : Z) (xs : list Z) :
  v <> 0 -> Forall (fun x => x = 0) xs -> index_where v (zdiff xs) = [].
Proof.
  intros Hv H. apply length_zero_iff_nil. rewrite index_where_length.
  destruct H as [|x xs -> H]; [reflexivity|].
  cbn [zdiff filter pos_is]. rewrite zdiff_from_zeros by assumption.
  reflexivity.
Qed.

(** X4: when the short and the long period are the same, the two moving
    averages are the same column, the signal is 0 on every bar, there is
    neither a buy nor a sell date, and the run counts no trade. *)
Theorem ma_crossover_equal_periods
  (closes : list num) (period : Z) (d : frame)
  (initial_capital : num) (m : metrics)
  (Hd : ma_crossover_strategy closes period period = Ok d)
  (Hrun : calculate_performance_metrics d initial_capital = Ok m) :
  Forall (fun x => x = 0) (Signal d)
  /\ index_where 1 (Position d) = []
  /\ index_where (-1) (Position d) = []
  /\ trades m = 0%nat
  /\ win_rate m = Fin 0.
Proof.
  destruct (ma_crossover_inv _ _ _ _ Hd) as (ms & ml & Hs & Hl & HS & HP & _).
  rewrite Hs in Hl. injection Hl as <-.
  assert (Hzero : Forall (fun x => x = 0) (Signal d)).
  { rewrite HS. unfold ma_signal. apply Forall_map, Forall_forall.
    intros [i [a b]] Hin. cbn [fst snd]. apply in_combine_r in Hin.
    apply combine_diag in Hin. subst b. unfold ma_signal_at, num_gtb.
    rewrite num_ltb_irrefl. destruct (Z.of_nat i <? period); reflexivity. }
  assert (Hbuy : index_where 1 (Position d) = []).
  { rewrite HP. apply index_where_zeros; [lia|exact Hzero]. }
  assert (Hsell : index_where (-1) (Position d) = []).
  { rewrite HP. apply index_where_zeros; [lia|exact Hzero]. }
  destruct (metrics_fields _ _ _ Hrun) as (Ht & Hw & _).
  split; [exact Hzero|]. split; [exact Hbuy|]. split; [exact Hsell|].
  split; [rewrite Ht, Hbuy; reflexivity|].
  rewrite Hw, Hbuy. reflexivity.
Qed.

Lemma ma_crossover_equal_periods_witness :
  exists d m,
    ma_crossover_strategy demo_closes 2 2 = Ok d
    /\ calculate_performance_metrics d (of_Z 100000) = Ok m
    /\ Signal d = [0; 0; 0; 0; 0]
    /\ trades m = 0%nat.
Proof.
  assert (Hd : ma_crossover_strategy demo_closes 2 2
               = Ok {| Close := demo_closes; Signal := [0; 0; 0; 0; 0];
                       Position := [None; Some 0; Some 0; Some 0; Some 0] |})
    by (vm_compute; reflexivity).
  destruct (metrics_total
              {| Close := demo_closes; Signal := [0; 0; 0; 0; 0];
                 Position := [None; Some 0; Some 0; Some 0; Some 0] |}
              (of_Z 100000)) as [m Hm]; [discriminate|reflexivity|].
  eexists. exists m. split; [exact Hd|]. split; [exact Hm|].
  split; [reflexivity|].
  exact (proj1 (proj2 (proj2 (proj2
    (ma_crossover_equal_periods _ _ _ _ _ Hd Hm))))).
Defined.

(** ** The range of the RSI *)

Lemma rolling_mean_at_nonnegative (w i : nat) (xs : list num) :
  Forall nonnegative xs ->
  rolling_mean_at w xs i = NaN \/ nonnegative (rolling_mean_at w xs i).
Proof.
  intros Hxs. unfold rolling_mean_at.
  rewrite (prep_value_id nonnegative xs nonnegative_finite Hxs).
  destruct (S i <? w)%nat; [left; reflexivity|].
  pose proof (window_nonnegative w i xs Hxs) as Hs.
  destruct w as [|w].
  - left. unfold window. cbn [firstn]. reflexivity.
  - right. destruct (nsum (window (S w) i xs)) as [a| | |]; cbn in Hs; try tauto.
    unfold of_nat, of_Z, num_div. rewrite (of_nat_nonzero (S w)) by lia.
    unfold fin. cbn [nonnegative]. rewrite Qred_correct.
    apply Qle_shift_div_l; [apply of_nat_positive; lia|]. lra.
Qed.

Lemma quotient_nonnegative (g l : Q) :
  (0 <= g)%Q -> (0 < l)%Q ->
  exists r, (Fin g / Fin l)%num = Fin r /\ (0 <= r)%Q.
Proof.
  intros Hg Hl. unfold num_div. rewrite (positive_nonzero l Hl).
  eexists. split; [reflexivity|]. rewrite Qred_correct.
  apply Qle_shift_div_l; [exact Hl|]. lra.
Qed.

Lemma rsi_of_positive_loss (g l : Q) :
  (0 <= g)%Q -> (0 < l)%Q -> within 0 100 (rsi_of (Fin g) (Fin l)).
Proof.
  intros Hg Hl. unfold rsi_of.
  destruct (quotient_nonnegative g l Hg Hl) as (r & -> & Hr).
  change (of_Z 1 + Fin r)%num with (Fin (Qred (1 + r))).
  assert (Ht : (1 <= Qred (1 + r))%Q) by (rewrite Qred_correct; lra).
  set (t := Qred (1 + r)) in *. clearbody t.
  unfold of_Z at 2. unfold num_div.
  rewrite (positive_nonzero t) by lra.
  assert (Hu : (0 < Qred (inject_Z 100 / t))%Q /\ (Qred (inject_Z 100 / t) <= 100)%Q).
  { rewrite Qred_correct. change (inject_Z 100) with 100%Q. split.
    - apply Qlt_shift_div_l; lra.
    - apply Qle_shift_div_r; lra. }
  unfold fin. set (u := Qred (inject_Z 100 / t)) in *. clearbody u.
  change (of_Z 100 - Fin u)%num with (Fin (Qred (100 + Qred (- u)))).
  cbn [within]. rewrite !Qred_correct. split; lra.
Qed.

Lemma rsi_of_range (g l : num) :
  g = NaN \/ nonnegative g -> l = NaN \/ nonnegative l ->
  rsi_of g l = NaN \/ within 0 100 (rsi_of g l).
Proof.
  intros [-> | Hg] Hl; [left; reflexivity|].
  destruct g as [a| | |]; cbn in Hg; try tauto.
  destruct Hl as [-> | Hl]; [left; reflexivity|].
  destruct l as [b| | |]; cbn in Hl; try tauto.
  destruct (Qlt_le_dec 0 b) as [Hpos|Hle].
  - right. apply rsi_of_positive_loss; assumption.
  - assert (Hb : (b == 0)%Q) by lra.
    destruct (rsi_of_zero_loss a b Hb) as [H100 Hnan].
    destruct (Qlt_le_dec 0 a) as [Ha|Ha].
    + right. rewrite (H100 Ha). cbn. split; discriminate.
    + left. apply Hnan. lra.
Qed.

Lemma rolling_mean_entries (w : Z) (xs ys : list num) (P : num -> Prop) :
  rolling_mean w xs = Ok ys ->
  (forall i, P (rolling_mean_at (Z.to_nat w) xs i)) ->
  Forall P ys.
Proof.
  unfold rolling_mean. destruct (w <? 0); [discriminate|].
  intros H HP. injection H as <-. apply Forall_map, Forall_forall.
  intros i _. apply HP.
Qed.

(** X5: on closes without infinities the RSI column has one entry per bar,
    each entry is either undefined (NaN) or a number between 0 and 100, and
    the entries of the first [period - 1] bars are undefined. *)
Theorem rsi_between_0_and_100
  (closes : list num) (period : Z) (rsi : list num)
  (Hcloses : Forall no_infinity closes)
  (Hrsi : calculate_rsi closes period = Ok rsi) :
  length rsi = length closes
  /\ Forall (fun r => r = NaN \/ within 0 100 r) rsi
  /\ forall i r,
       nth_error rsi i = Some r -> Z.of_nat (S i) < period -> r = NaN.
Proof.
  destruct (calculate_rsi_inv _ _ _ Hrsi) as (gain & loss & Hg & Hl & ->).
  pose proof (diff_no_infinity closes Hcloses) as Hd.
  unfold calculate_rsi_gain in Hg. unfold calculate_rsi_loss in Hl.
  assert (HG : Forall (fun g => g = NaN \/ nonnegative g) gain).
  { eapply rolling_mean_entries; [exact Hg|]. intros i.
    apply rolling_mean_at_nonnegative, gains_nonnegative, Hd. }
  assert (HL : Forall (fun l => l = NaN \/ nonnegative l) loss).
  { eapply rolling_mean_entries; [exact Hl|]. intros i.
    apply rolling_mean_at_nonnegative, losses_nonnegative, Hd. }
  split; [|split].
  - unfold rolling_mean in Hg, Hl. destruct (period <? 0); [discriminate|].
    injection Hg as <-. injection Hl as <-.
    rewrite length_map, length_combine, !length_map, !length_seq.
    unfold where_. rewrite !length_map, diff_length. lia.
  - apply Forall_map, Forall_forall. intros [g l] Hin. cbn [fst snd].
    rewrite Forall_forall in HG, HL.
    apply rsi_of_range;
      [eapply HG, in_combine_l, Hin|eapply HL, in_combine_r, Hin].
  - intros i r Hr Hi.
    rewrite nth_error_map in Hr.
    destruct (nth_error (combine gain loss) i) as [[g l]|] eqn:E; [|discriminate].
    cbn in Hr. injection Hr as <-.
    assert (Hgi : nth_error gain i = Some g).
    { revert E. clear. revert loss i. induction gain as [|a gain IH];
        intros [|b loss] [|i] E; cbn in *; try discriminate.
      - congruence.
      - eapply IH, E. }
    destruct (rolling_mean_nth _ _ _ _ _ Hg Hgi) as [_ ->].
    unfold rolling_mean_at.
    destruct (Nat.ltb_spec (S i) (Z.to_nat period)) as [_|Hn]; [reflexivity|lia].
Qed.

Lemma rsi_between_0_and_100_witness :
  Forall no_infinity demo_closes
  /\ calculate_rsi demo_closes 2 = Ok [NaN; Fin 100; Fin (200 # 3); Fin 80; Fin 80]
  /\ Forall (fun r => r = NaN \/ within 0 100 r)
            [NaN; Fin 100; Fin (200 # 3); Fin 80; Fin 80].
Proof.
  assert (Hc : Forall no_infinity demo_closes)
    by (repeat (constructor; [exact I|]); constructor).
  assert (Hr : calculate_rsi demo_closes 2
               = Ok [NaN; Fin 100; Fin (200 # 3); Fin 80; Fin 80])
    by (vm_compute; reflexivity).
  split; [exact Hc|]. split; [exact Hr|].
  exact (proj1 (proj2 (rsi_between_0_and_100 _ _ _ Hc Hr))).
Defined.

(** ** Losses are bounded, the Sharpe ratio is defined *)













Lemma Qsqrt_nonnegative (q : Q) : (0 <= Qsqrt q)%Q.
Proof.
  unfold Qsqrt, Qle. cbn [Qnum Qden].
  pose proof (Z.sqrt_nonneg (Qnum q * QDen q * 4 ^ 64)) as H.
  rewrite Z.mul_0_l. lia.
Qed.






(** ** Full reinvestment over a holding period *)

Section Holding.

Variable data : frame.
Variable initial_capital : num.
Variables j k : nat.
Hypothesis flat_before : position (sim_after data initial_capital j) = 0.
Hypothesis buy_at_j : is_buy data j = true.
Hypothesis no_sell_between : forall i, (j < i < k)%nat -> is_sell data i = false.

(** From the entry on, and as long as no sell signal comes, the loop is
    Long with the shares bought at the entry and untouched cash. *)
Lemma held (n : nat) :
  (j + n < k)%nat ->
  position (sim_after data initial_capital (S (j + n))) = 1
  /\ shares (sim_after data initial_capital (S (j + n)))
     = (portfolio_value (sim_after data initial_capital j)
        / loc (Close data) j)%num
  /\ portfolio_value (sim_after data initial_capital (S (j + n)))
     = portfolio_value (sim_after data initial_capital j).
Proof.
  induction n as [|n IH]; intros Hn.
  - rewrite Nat.add_0_r, sim_after_S. unfold sim_step, trade.
    fold (is_buy data j). rewrite buy_at_j, flat_before. cbn. auto.
  - destruct IH as (Hp & Hs & Hc); [lia|].
    replace (j + S n)%nat with (S (j + n)) by lia.
    rewrite (sim_after_S data initial_capital (S (j + n))).
    unfold sim_step, trade.
    fold (is_buy data (S (j + n))) (is_sell data (S (j + n))).
    rewrite Hp, (no_sell_between (S (j + n))) by lia.
    rewrite andb_false_r. cbn [andb position shares portfolio_value].
    auto.
Qed.

End Holding.

(** X8: when the loop is Flat before bar [j], bar [j] is a buy date, bar
    [k] is the next sell date, then on every bar from [j] to [k - 1] the
    portfolio value is the shares bought at [j] (cash / close of [j]) times
    that bar's close, and the cash after bar [k] is those shares times the
    close of [k]: the cash before the entry times close[k] / close[j]. *)
Theorem holding_period_value
  (data : frame) (initial_capital : num) (j k : nat)
  (Hjk : (j < k)%nat)
  (Hk : (k < length (Close data))%nat)
  (Hflat : position (sim_after data initial_capital j) = 0)
  (Hbuy : is_buy data j = true)
  (Hhold : forall i, (j < i < k)%nat -> is_sell data i = false)
  (Hsell : is_sell data k = true) :
  let cash := portfolio_value (sim_after data initial_capital j) in
  let bought := (cash / loc (Close data) j)%num in
  (forall i, (j <= i < k)%nat ->
     nth_error (portfolio_values (simulate data initial_capital)) i
     = Some (bought * loc (Close data) i)%num)
  /\ position (sim_after data initial_capital (S k)) = 0
  /\ portfolio_value (sim_after data initial_capital (S k))
     = (bought * loc (Close data) k)%num
  /\ nth_error (portfolio_values (simulate data initial_capital)) k
     = Some (bought * loc (Close data) k)%num
  /\ (forall c pj pk,
        cash = Fin c -> loc (Close data) j = Fin pj ->
        loc (Close data) k = Fin pk -> (0 < pj)%Q ->
        same_value (portfolio_value (sim_after data initial_capital (S k)))
                   (Fin (c * pk / pj))).
Proof.
  cbv zeta.
  assert (Hheld : forall i, (j <= i < k)%nat ->
            position (sim_after data initial_capital (S i)) = 1
            /\ shares (sim_after data initial_capital (S i))
               = (portfolio_value (sim_after data initial_capital j)
                  / loc (Close data) j)%num).
  { intros i Hi.
    destruct (held data initial_capital j k Hflat Hbuy Hhold (i - j))
      as (Hp & Hs & _); [lia|].
    replace (j + (i - j))%nat with i in Hp, Hs by lia. auto. }
  assert (Hexit : position (sim_after data initial_capital (S k)) = 0
                  /\ portfolio_value (sim_after data initial_capital (S k))
                     = (portfolio_value (sim_after data initial_capital j)
                        / loc (Close data) j * loc (Close data) k)%num).
  { destruct (Hheld (k - 1)%nat ltac:(lia)) as [Hp Hs].
    replace (S (k - 1)) with k in Hp, Hs by lia.
    rewrite sim_after_S. unfold sim_step, trade.
    fold (is_buy data k) (is_sell data k).
    rewrite Hp, Hsell, Hs, andb_false_r. cbn. auto. }
  destruct Hexit as [Hpk Hck].
  split; [|split; [exact Hpk|split; [exact Hck|split]]].
  - intros i Hi. destruct (Hheld i Hi) as [Hp Hs].
    rewrite (nth_error_nth' _ NaN)
      by (unfold simulate; rewrite values_length; lia).
    unfold simulate. rewrite values_nth by lia.
    unfold mark. rewrite Hp, Hs. reflexivity.
  - rewrite (nth_error_nth' _ NaN)
      by (unfold simulate; rewrite values_length; lia).
    unfold simulate. rewrite values_nth by lia.
    unfold mark. rewrite Hpk, Hck. reflexivity.
  - intros c pj pk Hc Hpj Hpk' Hpos.
    rewrite Hck, Hc, Hpj, Hpk'. unfold num_div.
    rewrite (positive_nonzero pj Hpos). unfold num_mul, fin. cbn [same_value].
    rewrite !Qred_correct. field. lra.
Qed.

Lemma holding_period_value_witness :
  (1 < 2)%nat /\ (2 < length (Close demo_frame))%nat
  /\ position (sim_after demo_frame (of_Z 100000) 1) = 0
  /\ is_buy demo_frame 1 = true
  /\ is_sell demo_frame 2 = true
  /\ same_value (portfolio_value (sim_after demo_frame (of_Z 100000) 3))
                (Fin (100000 * 11 / 12)).
Proof.
  assert (H12 : (1 < 2)%nat) by lia.
  assert (Hk : (2 < length (Close demo_frame))%nat) by (cbn; lia).
  assert (Hf : position (sim_after demo_frame (of_Z 100000) 1) = 0)
    by reflexivity.
  assert (Hb : is_buy demo_frame 1 = true) by reflexivity.
  assert (Hs : is_sell demo_frame 2 = true) by reflexivity.
  assert (Hh : forall i, (1 < i < 2)%nat -> is_sell demo_frame i = false)
    by (intros i Hi; lia).
  repeat (split; [assumption|]).
  pose proof (holding_period_value demo_frame (of_Z 100000) 1 2
                H12 Hk Hf Hb Hh Hs) as H.
  cbv zeta in H. destruct H as (_ & _ & _ & _ & H).
  apply (H 100000%Q 12%Q 11%Q); reflexivity.
Defined.

(** ** The table of completed trades and the win rate *)

Lemma loc_positive_or_nan (closes : list num) (i : nat) :
  Forall positive closes -> loc closes i = NaN \/ positive (loc closes i).
Proof.
  intros H. unfold loc. destruct (nth_in_or_default i closes NaN) as [Hin| ->].
  - right. rewrite Forall_forall in H. apply H, Hin.
  - left. reflexivity.
Qed.

(** A trade shows a profit above zero exactly when it sold above the buying
    price. *)
Lemma profit_sign (buy sell : num) :
  buy = NaN \/ positive buy -> sell = NaN \/ positive sell ->
  ((sell - buy) / buy * of_Z 100 >? Fin 0)%num = (sell >? buy)%num.
Proof.
  intros [-> | Hb] Hs.
  - destruct sell; reflexivity.
  - destruct buy as [b| | |]; cbn [positive] in Hb; try tauto.
    destruct Hs as [-> | Hs]; [reflexivity|].
    destruct sell as [a| | |]; cbn [positive] in Hs; try tauto.
    change (Fin a - Fin b)%num with (Fin (Qred (a + Qred (- b)))).
    unfold num_div. rewrite (positive_nonzero b Hb).
    unfold fin, of_Z, num_mul, fin, num_gtb.
    apply eq_true_iff_eq. rewrite !num_ltb_fin, !Qred_correct.
    change (inject_Z 100) with 100%Q.
    split; intros H.
    + assert (H' : (0 < (a + - b) / b)%Q) by lra.
      apply (Qmult_lt_compat_r _ _ b Hb) in H'.
      rewrite Qmult_0_l in H'. unfold Qdiv in H'.
      rewrite <- Qmult_assoc, (Qmult_comm (/ b)), Qmult_inv_r, Qmult_1_r in H'
        by lra.
      lra.
    + assert (H' : (0 < (a + - b) / b)%Q)
        by (apply Qlt_shift_div_l; lra).
      lra.
Qed.

Lemma count_map {A B : Type} (p : B -> bool) (f : A -> B) (xs : list A) :
  length (filter p (map f xs)) = length (filter (fun a => p (f a)) xs).
Proof.
  induction xs as [|x xs IH]; [reflexivity|]. cbn [map filter].
  destruct (p (f x)); cbn [length]; rewrite IH; reflexivity.
Qed.

Lemma count_ext {A : Type} (p q : A -> bool) (xs : list A) :
  (forall a, p a = q a) ->
  length (filter p xs) = length (filter q xs).
Proof.
  intros H. induction xs as [|x xs IH]; [reflexivity|]. cbn [filter].
  rewrite H. destruct (q x); cbn [length]; rewrite IH; reflexivity.
Qed.

(** X9: the table of completed trades has one row per (buy, sell) pair the
    win rate looks at; with finite positive closes a row shows a profit
    above zero exactly when it sold above its buying price, so the win rate
    is the number of rows in profit, out of all buy signals. *)
Theorem trades_table_matches_win_rate
  (data : frame) (initial_capital : num) (m : metrics)
  (Hcloses : Forall positive (Close data))
  (Hrun : calculate_performance_metrics data initial_capital = Ok m) :
  let in_profit := filter (fun r => (profit r >? Fin 0)%num) (trades_data data) in
  length (trades_data data) = completed_trades data
  /\ Forall (fun r => (profit r >? Fin 0)%num = (sell_price r >? buy_price r)%num)
            (trades_data data)
  /\ (length in_profit <= length (trades_data data) <= trades m)%nat
  /\ win_rate m
     = (if (0 <? trades m)%nat
        then (of_nat (length in_profit) / of_nat (trades m) * of_Z 100)%num
        else of_Z 0).
Proof.
  cbv zeta.
  destruct (metrics_fields _ _ _ Hrun) as (Ht & Hw & _).
  assert (Hrow : forall i,
            (profit (trade_row_at (Close data) (index_where 1 (Position data))
                                  (index_where (-1) (Position data)) i)
             >? Fin 0)%num
            = (loc (Close data) (nth i (index_where (-1) (Position data)) O)
               >? loc (Close data) (nth i (index_where 1 (Position data)) O))%num).
  { intros i. unfold trade_row_at. cbn [profit].
    apply profit_sign; apply loc_positive_or_nan, Hcloses. }
  assert (Hcount : length (filter (fun r => (profit r >? Fin 0)%num)
                                  (trades_data data))
                   = profitable_trades (Close data)
                       (index_where 1 (Position data))
                       (index_where (-1) (Position data))).
  { unfold trades_data, profitable_trades. rewrite count_map.
    apply count_ext, Hrow. }
  assert (Hlen : length (trades_data data) = completed_trades data).
  { unfold trades_data, completed_trades.
    rewrite length_map, length_seq. reflexivity. }
  split; [exact Hlen|]. split; [|split].
  - unfold trades_data. apply Forall_map, Forall_forall. intros i _.
    rewrite Hrow. reflexivity.
  - rewrite Hlen, Ht. unfold completed_trades. split.
    + etransitivity; [apply filter_length_le|].
      rewrite Hlen. unfold completed_trades. reflexivity.
    + apply Nat.le_min_l.
  - rewrite Hw, Ht, Hcount. reflexivity.
Qed.

Lemma trades_table_matches_win_rate_witness :
  Forall positive (Close open_frame)
  /\ exists m,
       calculate_performance_metrics open_frame (of_Z 100000) = Ok m
       /\ length (trades_data open_frame) = 1%nat.
Proof.
  assert (Hc : Forall positive (Close open_frame))
    by (repeat (constructor; [reflexivity|]); constructor).
  split; [exact Hc|].
  destruct (metrics_total open_frame (of_Z 100000)) as [m Hm]; [discriminate|reflexivity|].
  exists m. split; [exact Hm|].
  pose proof (trades_table_matches_win_rate open_frame (of_Z 100000) m Hc Hm)
    as H.
  cbv zeta in H. destruct H as (H & _). rewrite H. reflexivity.
Defined.

(** ** What the handler can show *)

Lemma periods_accepted_dec (s : strategy) (bars : nat) :
  periods_accepted s bars \/ ~ periods_accepted s bars.
Proof. destruct s; cbn [periods_accepted]; lia. Qed.

(** X10: a run ends in exactly one of four ways: without data when the
    series is empty; with a ValueError when a period is negative or the
    short MA period exceeds the number of bars; with a ZeroDivisionError
    when the initial capital is zero and nothing was bought; and with a
    metrics record otherwise.  The IndexError of [portfolio_values[-1]] is
    never reached. *)
Theorem run_outcomes (s : strategy) (closes : list num) (initial_capital : num) :
  (closes = [] /\ run_analysis s closes initial_capital = NoData)
  \/ (closes <> [] /\ ~ periods_accepted s (length closes)
      /\ run_analysis s closes initial_capital = Failed ValueError)
  \/ (closes <> [] /\ periods_accepted s (length closes)
      /\ exists d,
           apply_strategy s closes = Ok d
           /\ ((never_bought d initial_capital = true
                /\ num_eqb initial_capital (Fin 0) = true
                /\ run_analysis s closes initial_capital
                   = Failed ZeroDivisionError)
               \/ ((never_bought d initial_capital = false
                    \/ num_eqb initial_capital (Fin 0) = false)
                   /\ exists m,
                        run_analysis s closes initial_capital = Completed m))).
Proof.
  destruct closes as [|c closes]; [left; split; reflexivity|]. right.
  destruct (periods_accepted_dec s (length (c :: closes))) as [Hp|Hn].
  - right. split; [discriminate|]. split; [exact Hp|].
    destruct (apply_strategy_ok s (c :: closes) Hp) as (d & Hd & HC).
    exists d. split; [exact Hd|].
    assert (Hne : Close d <> []) by (rewrite HC; discriminate).
    pose proof (metrics_outcome d initial_capital Hne) as Hout.
    unfold run_analysis. rewrite Hd. cbn [bind].
    destruct (never_bought d initial_capital);
      destruct (num_eqb initial_capital (Fin 0)); cbn [andb] in Hout.
    + left. rewrite Hout. auto.
    + right. destruct Hout as [m ->]. split; [auto|]. exists m. reflexivity.
    + right. destruct Hout as [m ->]. split; [auto|]. exists m. reflexivity.
    + right. destruct Hout as [m ->]. split; [auto|]. exists m. reflexivity.
  - left. split; [discriminate|]. split; [exact Hn|].
    unfold run_analysis. rewrite (apply_strategy_refused s (c :: closes) Hn).
    reflexivity.
Qed.

(** ** Exponential moving average *)

Lemma ewm_alpha_range (span : Z) :
  1 <= span ->
  exists a,
    ewm_alpha span = Fin a /\ (0 < a)%Q /\ (a <= 1)%Q
    /\ (a == 2 / (inject_Z span + 1))%Q.
Proof.
  intros Hs. unfold ewm_alpha.
  assert (Hq : (1 <= inject_Z span)%Q).
  { change 1%Q with (inject_Z 1). rewrite <- Zle_Qle. exact Hs. }
  change (of_Z span - of_Z 1)%num
    with (Fin (Qred (inject_Z span + Qred (- inject_Z 1)))).
  set (u := Qred (inject_Z span + Qred (- inject_Z 1))).
  assert (Hu : (u == inject_Z span - 1)%Q).
  { unfold u. rewrite !Qred_correct. change (inject_Z 1) with 1%Q. lra. }
  clearbody u.
  change (Fin u / of_Z 2)%num with (Fin (Qred (u / inject_Z 2))).
  set (v := Qred (u / inject_Z 2)).
  assert (Hv : (v == (inject_Z span - 1) / 2)%Q).
  { unfold v. rewrite Qred_correct, Hu. reflexivity. }
  clearbody v.
  change (of_Z 1 + Fin v)%num with (Fin (Qred (inject_Z 1 + v))).
  set (t := Qred (inject_Z 1 + v)).
  assert (Ht : (t == (inject_Z span + 1) / 2)%Q).
  { unfold t. rewrite Qred_correct, Hv. change (inject_Z 1) with 1%Q. field. }
  clearbody t.
  assert (Ht1 : (1 <= t)%Q).
  { rewrite Ht. apply Qle_shift_div_l; lra. }
  unfold of_Z, num_div. rewrite (positive_nonzero t) by lra.
  unfold fin. eexists. split; [reflexivity|].
  rewrite Qred_correct. change (inject_Z 1) with 1%Q.
  split; [apply Qlt_shift_div_l; lra|].
  split; [apply Qle_shift_div_r; lra|].
  rewrite Ht. field. lra.
Qed.

(** One step on a number, from a state without gaps. *)
Lemma ewm_step_number (a w x : Q) :
  (0 < a)%Q -> (a <= 1)%Q ->
  exists w',
    ewm_step (Fin a) {| weighted := Fin w; old_wt := of_Z 1 |} (Fin x)
    = {| weighted := Fin w'; old_wt := of_Z 1 |}
    /\ (w' == (1 - a) * w + a * x)%Q.
Proof.
  intros Ha Ha1. unfold ewm_step. cbn [weighted old_wt isna negb].
  unfold num_neb, num_eqb.
  destruct (Qeq_bool w x) eqn:E; cbn [negb].
  - exists w. split; [reflexivity|].
    apply Qeq_bool_eq in E. rewrite <- E. ring.
  - change (of_Z 1 - Fin a)%num with (Fin (Qred (inject_Z 1 + Qred (- a)))).
    change (of_Z 1 * Fin (Qred (inject_Z 1 + Qred (- a))))%num
      with (Fin (Qred (inject_Z 1 * Qred (inject_Z 1 + Qred (- a))))).
    set (old := Qred (inject_Z 1 * Qred (inject_Z 1 + Qred (- a)))).
    assert (Hold : (old == 1 - a)%Q).
    { unfold old. rewrite !Qred_correct. change (inject_Z 1) with 1%Q. ring. }
    clearbody old.
    change (Fin old * Fin w + Fin a * Fin x)%num
      with (Fin (Qred (Qred (old * w) + Qred (a * x)))).
    change (Fin old + Fin a)%num with (Fin (Qred (old + a))).
    assert (Hden : (Qred (old + a) == 1)%Q).
    { rewrite Qred_correct, Hold. ring. }
    unfold num_div.
    destruct (Qeq_bool (Qred (old + a)) 0) eqn:Ed.
    { apply Qeq_bool_eq in Ed. rewrite Hden in Ed. discriminate. }
    unfold fin. eexists. split; [reflexivity|].
    rewrite Qred_correct. rewrite Hden. rewrite !Qred_correct, Hold. field.
Qed.

Lemma ewm_from_numbers (a lo hi w : Q) (xs : list num) :
  (0 < a)%Q -> (a <= 1)%Q -> (lo <= w)%Q -> (w <= hi)%Q ->
  Forall (within lo hi) xs ->
  let ys := ewm_from (Fin a) {| weighted := Fin w; old_wt := of_Z 1 |} xs in
  length ys = length xs
  /\ Forall (within lo hi) ys
  /\ ema_recursion a w xs ys.
Proof.
  intros Ha Ha1 Hlo Hhi Hxs. cbv zeta. revert w Hlo Hhi.
  induction Hxs as [|x xs Hx _ IH]; intros w Hlo Hhi.
  - cbn. auto.
  - destruct x as [q| | |]; cbn [within] in Hx; try tauto.
    destruct (ewm_step_number a w q Ha Ha1) as (w' & Hstep & Hw').
    cbn [ewm_from]. rewrite Hstep. cbn [weighted].
    assert (Hin : (lo <= w')%Q /\ (w' <= hi)%Q).
    { rewrite Hw'. split; nra. }
    destruct (IH w' (proj1 Hin) (proj2 Hin)) as (Hlen & Hall & Hrec).
    split; [cbn [length]; rewrite Hlen; reflexivity|].
    split; [constructor; [exact Hin|exact Hall]|].
    cbn [ema_recursion]. split; [exact Hw'|exact Hrec].
Qed.

(** X11: on prices without gaps between [lo] and [hi] and with a span of at
    least 1, the exponential average starts at the first price, follows
    [y = (1 - a) * previous + a * price] with [a = 2 / (span + 1)], has one
    entry per bar and stays between [lo] and [hi]. *)
Theorem ewm_mean_recursion
  (span : Z) (lo hi : Q) (x : Q) (xs : list num)
  (Hspan : 1 <= span)
  (Hfirst : within lo hi (Fin x))
  (Hrest : Forall (within lo hi) xs) :
  exists a ys,
    (a == 2 / (inject_Z span + 1))%Q
    /\ ewm_mean span (Fin x :: xs) = Ok (Fin x :: ys)
    /\ length ys = length xs
    /\ Forall (within lo hi) ys
    /\ ema_recursion a x xs ys.
Proof.
  destruct (ewm_alpha_range span Hspan) as (a & Ha & Ha0 & Ha1 & Heq).
  cbn [within] in Hfirst. destruct Hfirst as [Hlo Hhi].
  pose proof (ewm_from_numbers a lo hi x xs Ha0 Ha1 Hlo Hhi Hrest) as H.
  cbv zeta in H.
  exists a. eexists. split; [exact Heq|].
  unfold ewm_mean. destruct (Z.ltb_spec span 1) as [|_]; [lia|].
  rewrite Ha. split; [reflexivity|]. exact H.
Qed.

Lemma ewm_mean_recursion_witness :
  1 <= 3
  /\ within 10 12 (Fin 10)
  /\ Forall (within 10 12) [Fin 12; Fin 11]
  /\ exists a ys,
       (a == 2 / (inject_Z 3 + 1))%Q
       /\ ewm_mean 3 [Fin 10; Fin 12; Fin 11] = Ok (Fin 10 :: ys)
       /\ Forall (within 10 12) ys.
Proof.
  assert (Hs : 1 <= 3) by lia.
  assert (Hf : within 10 12 (Fin 10)) by (cbn; split; discriminate).
  assert (Hr : Forall (within 10 12) [Fin 12; Fin 11])
    by (repeat (constructor; [cbn; split; discriminate|]); constructor).
  split; [exact Hs|]. split; [exact Hf|]. split; [exact Hr|].
  destruct (ewm_mean_recursion 3 10 12 10 [Fin 12; Fin 11] Hs Hf Hr)
    as (a & ys & Ha & Hy & _ & Hall & _).
  exists a, ys. auto.
Defined.

(** ** MACD *)

Lemma zip_with_length (f : num -> num -> num) (xs ys : list num) :
  length xs = length ys -> length (zip_with f xs ys) = length xs.
Proof.
  intros H. unfold zip_with. rewrite length_map, length_combine. lia.
Qed.

Lemma sub_within (lo hi lo' hi' : Q) (x y : num) :
  within lo hi x -> within lo' hi' y -> within (lo - hi') (hi - lo') (x - y)%num.
Proof.
  destruct x as [a| | |], y as [b| | |]; cbn [within]; try tauto.
  intros [H1 H2] [H3 H4].
  change (Fin a - Fin b)%num with (Fin (Qred (a + Qred (- b)))).
  cbn [within]. rewrite !Qred_correct. split; lra.
Qed.

Lemma zip_sub_within (lo hi lo' hi' : Q) (xs ys : list num) :
  Forall (within lo hi) xs -> Forall (within lo' hi') ys ->
  Forall (within (lo - hi') (hi - lo')) (zip_with num_sub xs ys).
Proof.
  intros Hx. revert ys. unfold zip_with.
  induction Hx as [|x xs Hx _ IH]; intros ys Hy; [constructor|].
  destruct Hy as [|y ys Hy Hys]; [constructor|].
  cbn [combine map fst snd]. constructor; [apply sub_within; assumption|].
  apply IH, Hys.
Qed.

Lemma ewm_mean_within (span : Z) (lo hi x : Q) (xs : list num) :
  1 <= span -> within lo hi (Fin x) -> Forall (within lo hi) xs ->
  exists ys,
    ewm_mean span (Fin x :: xs) = Ok (Fin x :: ys)
    /\ length ys = length xs
    /\ Forall (within lo hi) ys.
Proof.
  intros Hs Hx Hxs.
  destruct (ewm_alpha_range span Hs) as (a & Ha & Ha0 & Ha1 & _).
  cbn [within] in Hx. destruct Hx as [Hlo Hhi].
  pose proof (ewm_from_numbers a lo hi x xs Ha0 Ha1 Hlo Hhi Hxs) as H.
  cbv zeta in H. destruct H as (Hlen & Hall & _).
  eexists. unfold ewm_mean. destruct (Z.ltb_spec span 1) as [|_]; [lia|].
  rewrite Ha. split; [reflexivity|]. split; assumption.
Qed.

(** X12: with spans of at least 1 and prices without gaps between [lo] and
    [hi], MACD, signal line and histogram have one entry per bar and are
    defined from the first bar on, where all three are 0; MACD and signal
    line stay within [hi - lo] of zero and the histogram within twice
    that. *)
Theorem macd_defined_and_bounded
  (fast slow signal : Z) (lo hi x : Q) (xs : list num)
  (Hfast : 1 <= fast) (Hslow : 1 <= slow) (Hsignal : 1 <= signal)
  (Hfirst : within lo hi (Fin x))
  (Hrest : Forall (within lo hi) xs) :
  exists macd signal_line histogram,
    calculate_macd (Fin x :: xs) fast slow signal
    = Ok (Fin 0 :: macd, Fin 0 :: signal_line, Fin 0 :: histogram)
    /\ length macd = length xs
    /\ length signal_line = length xs
    /\ length histogram = length xs
    /\ Forall (within (lo - hi) (hi - lo)) macd
    /\ Forall (within (lo - hi) (hi - lo)) signal_line
    /\ Forall (within (lo - hi - (hi - lo)) (hi - lo - (lo - hi))) histogram.
Proof.
  destruct (ewm_mean_within fast lo hi x xs Hfast Hfirst Hrest)
    as (e1 & He1 & Hl1 & Hw1).
  destruct (ewm_mean_within slow lo hi x xs Hslow Hfirst Hrest)
    as (e2 & He2 & Hl2 & Hw2).
  pose proof (zip_sub_within _ _ _ _ _ _ Hw1 Hw2) as Hmacd.
  assert (Hzero : within (lo - hi) (hi - lo) (Fin 0)).
  { cbn [within] in Hfirst |- *. lra. }
  destruct (ewm_mean_within signal (lo - hi) (hi - lo) 0
              (zip_with num_sub e1 e2) Hsignal Hzero Hmacd)
    as (sg & Hsg & Hlsg & Hwsg).
  pose proof (zip_sub_within _ _ _ _ _ _ Hmacd Hwsg) as Hhist.
  assert (Hlm : length (zip_with num_sub e1 e2) = length xs).
  { rewrite zip_with_length; congruence. }
  exists (zip_with num_sub e1 e2), sg,
    (zip_with num_sub (zip_with num_sub e1 e2) sg).
  split.
  - unfold calculate_macd. rewrite He1, He2. cbn [bind].
    assert (Hhead : zip_with num_sub (Fin x :: e1) (Fin x :: e2)
                    = Fin 0 :: zip_with num_sub e1 e2).
    { unfold zip_with. cbn [combine map fst snd]. f_equal.
      change (Fin x - Fin x)%num with (fin (x + Qred (- x))).
      apply fin_zero. rewrite Qred_correct. ring. }
    rewrite Hhead, Hsg. cbn [bind]. reflexivity.
  - split; [exact Hlm|]. split; [congruence|].
    split; [rewrite zip_with_length; congruence|].
    split; [exact Hmacd|]. split; [exact Hwsg|exact Hhist].
Qed.

Lemma macd_defined_and_bounded_witness :
  1 <= 12 /\ 1 <= 26 /\ 1 <= 9
  /\ within 10 15 (Fin 10)
  /\ Forall (within 10 15) [Fin 12; Fin 11; Fin 15; Fin 14]
  /\ exists macd signal_line histogram,
       calculate_macd demo_closes 12 26 9
       = Ok (Fin 0 :: macd, Fin 0 :: signal_line, Fin 0 :: histogram)
       /\ Forall (within (10 - 15) (15 - 10)) macd.
Proof.
  assert (H1 : 1 <= 12) by lia.
  assert (H2 : 1 <= 26) by lia.
  assert (H3 : 1 <= 9) by lia.
  assert (Hf : within 10 15 (Fin 10)) by (cbn; split; discriminate).
  assert (Hr : Forall (within 10 15) [Fin 12; Fin 11; Fin 15; Fin 14])
    by (repeat (constructor; [cbn; split; discriminate|]); constructor).
  repeat (split; [assumption|]).
  destruct (macd_defined_and_bounded 12 26 9 10 15 10
              [Fin 12; Fin 11; Fin 15; Fin 14] H1 H2 H3 Hf Hr)
    as (macd & sg & hist & Hrun & _ & _ & _ & Hm & _).
  exists macd, sg, hist. split; [exact Hrun|exact Hm].
Defined.

(** ** Bollinger bands *)

Lemma num_sqrt_range (x : num) :
  num_sqrt x = NaN \/ num_sqrt x = PInf \/ nonnegative (num_sqrt x).
Proof.
  destruct x as [q| | |]; cbn [num_sqrt]; auto.
  destruct (Qle_bool 0 q); [|auto]. right. right.
  unfold fin. cbn [nonnegative]. rewrite Qred_correct. apply Qsqrt_nonnegative.
Qed.

Lemma rolling_std_at_range (w i : nat) (xs : list num) :
  rolling_std_at w xs i = NaN \/ rolling_std_at w xs i = PInf
  \/ nonnegative (rolling_std_at w xs i).
Proof.
  unfold rolling_std_at. destruct (S i <? w)%nat; [auto|]. apply num_sqrt_range.
Qed.

(** A window of one price has no spread to measure. *)
Lemma rolling_std_single (xs : list num) (i : nat) :
  rolling_std_at 1 xs i = NaN.
Proof.
  unfold rolling_std_at. cbn [Nat.ltb Nat.leb]. cbv zeta.
  unfold window. replace (S i - 1)%nat with i by lia.
  destruct (skipn i (map prep_value xs)) as [|x rest]; [reflexivity|].
  cbn [firstn map]. unfold nsum. cbn [fold_left Nat.sub].
  destruct x as [q| | |]; try reflexivity.
  change (Fin 0 + Fin q)%num with (Fin (Qred (0 + q))).
  change (Fin (Qred (0 + q)) / of_nat 1)%num
    with (Fin (Qred (Qred (0 + q) / inject_Z 1))).
  set (m := Qred (Qred (0 + q) / inject_Z 1)).
  assert (Hm : (m == q)%Q).
  { unfold m. rewrite !Qred_correct. change (inject_Z 1) with 1%Q. field. }
  clearbody m.
  change (Fin q - Fin m)%num with (Fin (Qred (q + Qred (- m)))).
  set (d := Qred (q + Qred (- m))).
  assert (Hd : (d == 0)%Q) by (unfold d; rewrite !Qred_correct, Hm; ring).
  clearbody d.
  change (Fin 0 + Fin d * Fin d)%num with (fin (0 + Qred (d * d))).
  rewrite (fin_zero (0 + Qred (d * d))) by (rewrite Qred_correct, Hd; ring).
  reflexivity.
Qed.

Lemma rolling_std_nth (w : Z) (xs ys : list num) (i : nat) (y : num) :
  rolling_std w xs = Ok ys -> nth_error ys i = Some y ->
  0 <= w /\ y = rolling_std_at (Z.to_nat w) xs i.
Proof.
  unfold rolling_std. destruct (Z.ltb_spec w 0) as [|Hw]; [discriminate|].
  intros H Hy. injection H as <-. split; [exact Hw|].
  rewrite nth_error_map, nth_error_seq in Hy.
  destruct (i <? length xs)%nat; [|discriminate].
  cbn in Hy. congruence.
Qed.

Lemma zip_with_nth (f : num -> num -> num) (xs ys : list num) (i : nat) (z : num) :
  nth_error (zip_with f xs ys) i = Some z ->
  exists x y, nth_error xs i = Some x /\ nth_error ys i = Some y /\ z = f x y.
Proof.
  unfold zip_with. revert ys i.
  induction xs as [|a xs IH]; intros [|b ys] [|i] H; cbn in H; try discriminate.
  - injection H as <-. exists a, b. cbn. auto.
  - destruct (IH ys i H) as (x & y & Hx & Hy & Hz). exists x, y. cbn. auto.
Qed.

Lemma band_width_range (sd : num) (k : Z) :
  0 <= k ->
  sd = NaN \/ sd = PInf \/ nonnegative sd ->
  (sd * of_Z k)%num = NaN \/ (sd * of_Z k)%num = PInf
  \/ nonnegative (sd * of_Z k)%num.
Proof.
  intros Hk [-> | [-> | Hsd]].
  - left. reflexivity.
  - unfold of_Z, num_mul, inf_of_sign, sgn. cbn [inject_Z Qnum].
    destruct (Z.compare_spec k 0); auto; lia.
  - destruct sd as [s| | |]; cbn [nonnegative] in Hsd; try tauto.
    right. right. unfold of_Z, num_mul, fin. cbn [nonnegative].
    rewrite Qred_correct.
    assert (Hq : (0 <= inject_Z k)%Q).
    { change 0%Q with (inject_Z 0). rewrite <- Zle_Qle. exact Hk. }
    nra.
Qed.

(** The two outer bands around a middle value, for a width that is a
    number not below zero. *)
Lemma bands_around (m t : num) :
  t = NaN \/ t = PInf \/ nonnegative t ->
  finite (m + t)%num ->
  exists a b c,
    (m + t)%num = Fin a /\ m = Fin b /\ (m - t)%num = Fin c
    /\ (c <= b)%Q /\ (b <= a)%Q /\ (a + c == 2 * b)%Q.
Proof.
  intros Ht Hfin.
  destruct m as [b| | |];
    destruct Ht as [-> | [-> | Ht]]; cbn in Hfin; try tauto;
    destruct t as [w| | |]; cbn in Ht, Hfin; try tauto.
  change (Fin b + Fin w)%num with (Fin (Qred (b + w))).
  change (Fin b - Fin w)%num with (Fin (Qred (b + Qred (- w)))).
  eexists. exists b. eexists.
  split; [reflexivity|]. split; [reflexivity|]. split; [reflexivity|].
  rewrite !Qred_correct. repeat split; lra.
Qed.

(** X13: with a multiplier that is not negative, the three Bollinger
    columns have one entry per bar; all three are undefined on the first
    [period - 1] bars; wherever the upper band is a number, so are the
    other two, the lower band is not above the middle one, the middle one
    not above the upper one, and the middle one is halfway between them.
    With period 1 the outer bands are undefined on every bar. *)
Theorem bollinger_bands_order
  (closes : list num) (period std : Z) (upper ma lower : list num)
  (Hstd : 0 <= std)
  (Hbands : calculate_bollinger_bands closes period std = Ok (upper, ma, lower)) :
  length upper = length closes
  /\ length ma = length closes
  /\ length lower = length closes
  /\ forall i u,
       nth_error upper i = Some u ->
       exists m l,
         nth_error ma i = Some m /\ nth_error lower i = Some l
         /\ (Z.of_nat (S i) < period -> u = NaN /\ m = NaN /\ l = NaN)
         /\ (period = 1 -> u = NaN /\ l = NaN)
         /\ (finite u ->
             exists a b c,
               u = Fin a /\ m = Fin b /\ l = Fin c
               /\ (c <= b)%Q /\ (b <= a)%Q /\ (a + c == 2 * b)%Q).
Proof.
  unfold calculate_bollinger_bands in Hbands.
  destruct (rolling_mean period closes) as [mid|e] eqn:Hmid;
    cbn [bind] in Hbands; [|discriminate].
  destruct (rolling_std period closes) as [sds|e] eqn:Hsds;
    cbn [bind] in Hbands; [|discriminate].
  injection Hbands as <- <- <-.
  assert (Hlm : length mid = length closes).
  { unfold rolling_mean in Hmid. destruct (period <? 0); [discriminate|].
    injection Hmid as <-. rewrite length_map, length_seq. reflexivity. }
  assert (Hls : length sds = length closes).
  { unfold rolling_std in Hsds. destruct (period <? 0); [discriminate|].
    injection Hsds as <-. rewrite length_map, length_seq. reflexivity. }
  split; [rewrite zip_with_length; rewrite ?length_map; congruence|].
  split; [exact Hlm|].
  split; [rewrite zip_with_length; rewrite ?length_map; congruence|].
  intros i u Hu.
  destruct (zip_with_nth _ _ _ _ _ Hu) as (m & t & Hm & Ht & ->).
  rewrite nth_error_map in Ht.
  destruct (nth_error sds i) as [sd|] eqn:Hsd; [|discriminate].
  cbn in Ht. injection Ht as <-.
  assert (Hl : nth_error (zip_with num_sub mid (map (fun sd => (sd * of_Z std)%num) sds)) i
               = Some (m - sd * of_Z std)%num).
  { unfold zip_with. apply (nth_error_map_combine
      (fun xy => (fst xy - snd xy)%num) _ _ i m (sd * of_Z std)%num Hm).
    rewrite nth_error_map, Hsd. reflexivity. }
  exists m, (m - sd * of_Z std)%num.
  split; [exact Hm|]. split; [exact Hl|].
  destruct (rolling_mean_nth _ _ _ _ _ Hmid Hm) as [Hw ->].
  destruct (rolling_std_nth _ _ _ _ _ Hsds Hsd) as [_ ->].
  split; [|split].
  - intros Hi. unfold rolling_mean_at, rolling_std_at.
    destruct (Nat.ltb_spec (S i) (Z.to_nat period)) as [_|Hn]; [|lia].
    auto.
  - intros ->. change (Z.to_nat 1) with 1%nat.
    rewrite rolling_std_single.
    destruct (rolling_mean_at 1 closes i); auto.
  - intros Hfin. apply bands_around; [|exact Hfin].
    apply band_width_range; [exact Hstd|apply rolling_std_at_range].
Qed.

Lemma bollinger_bands_order_witness :
  0 <= 2
  /\ exists upper ma lower,
       calculate_bollinger_bands demo_closes 2 2 = Ok (upper, ma, lower)
       /\ length upper = 5%nat
       /\ nth_error ma 1 = Some (Fin 11).
Proof.
  assert (Hs : 0 <= 2) by lia.
  split; [exact Hs|].
  destruct (calculate_bollinger_bands demo_closes 2 2) as [[[up ma] low]|e] eqn:E;
    [|vm_compute in E; discriminate].
  exists up, ma, low. split; [reflexivity|].
  split; [exact (proj1 (bollinger_bands_order _ _ _ _ _ _ Hs E))|].
  vm_compute in E. injection E as _ <- _. reflexivity.
Defined.

(** ** Signals and the position of the loop *)

Lemma ma_signal_at_values (sp : Z) (i : nat) (a b : num) :
  ma_signal_at sp i a b = 0 \/ ma_signal_at sp i a b = 1.
Proof.
  unfold ma_signal_at. destruct (Z.of_nat i <? sp); [auto|].
  destruct (a >? b)%num; auto.
Qed.

Lemma rolling_mean_empty_window (xs : list num) (i : nat) :
  rolling_mean_at 0 xs i = NaN.
Proof. unfold rolling_mean_at, window. cbn [Nat.ltb Nat.leb firstn]. reflexivity. Qed.

Lemma ma_first_signal (closes : list num) (sp lp : Z) (d : frame) :
  ma_crossover_strategy closes sp lp = Ok d ->
  closes <> [] -> nth_error (Signal d) 0 = Some 0.
Proof.
  intros Hd Hne.
  destruct (ma_crossover_inv _ _ _ _ Hd) as (ms & ml & Hs & Hl & -> & _).
  unfold calculate_ma, rolling_mean in Hs, Hl.
  destruct (Z.ltb_spec sp 0) as [|Hsp]; [discriminate|].
  destruct (lp <? 0); [discriminate|].
  injection Hs as <-. injection Hl as <-.
  destruct closes as [|c closes]; [congruence|].
  unfold ma_signal. cbn [length seq map combine nth_error fst snd].
  unfold ma_signal_at. cbn [Z.of_nat].
  destruct (Z.ltb_spec 0 sp) as [|Hz]; [reflexivity|].
  replace sp with 0 by lia. change (Z.to_nat 0) with 0%nat.
  rewrite rolling_mean_empty_window. unfold num_gtb.
  destruct (rolling_mean_at (Z.to_nat lp) (c :: closes) 0); reflexivity.
Qed.

(** X14: under MA crossover the position of the loop on a bar is the
    signal of that bar: the simulator is Long exactly on the bars whose
    short average is above the long one (from bar [short_period] on). *)
Theorem ma_position_is_signal
  (closes : list num) (short_period long_period : Z) (d : frame)
  (initial_capital : num) (k : nat)
  (Hd : ma_crossover_strategy closes short_period long_period = Ok d)
  (Hk : (k < length closes)%nat) :
  nth_error (Signal d) k
  = Some (position (sim_after d initial_capital (S k))).
Proof.
  destruct (apply_strategy_inv (MA_Crossover short_period long_period)
              closes d Hd) as (_ & HP & HS).
  apply position_follows_signal.
  - exact HP.
  - destruct (ma_crossover_inv _ _ _ _ Hd) as (ms & ml & _ & _ & -> & _).
    unfold ma_signal. apply Forall_map, Forall_forall. intros t _.
    apply ma_signal_at_values.
  - apply (ma_first_signal closes short_period long_period d Hd).
    destruct closes; [cbn in Hk; lia|discriminate].
  - rewrite HS. exact Hk.
Qed.

Lemma ma_position_is_signal_witness :
  ma_crossover_strategy demo_closes 1 2 = Ok demo_frame
  /\ (3 < length demo_closes)%nat
  /\ position (sim_after demo_frame (of_Z 100000) 4) = 1.
Proof.
  assert (Hd : ma_crossover_strategy demo_closes 1 2 = Ok demo_frame)
    by (vm_compute; reflexivity).
  assert (Hk : (3 < length demo_closes)%nat) by (cbn; lia).
  split; [exact Hd|]. split; [exact Hk|].
  pose proof (ma_position_is_signal demo_closes 1 2 demo_frame (of_Z 100000)
                3 Hd Hk) as H.
  apply (f_equal (fun o => match o with Some z => z | None => 0 end)) in H.
  symmetry. exact H.
Defined.

Lemma rsi_signal_at_values (os ob : Z) (r : num) :
  rsi_signal_at os ob r = -1 \/ rsi_signal_at os ob r = 0
  \/ rsi_signal_at os ob r = 1.
Proof.
  unfold rsi_signal_at. destruct (r >? of_Z ob)%num; [auto|].
  destruct (r <? of_Z os)%num; auto.
Qed.

(** X15: under the RSI strategy a bar after the first is a buy date exactly
    when the signal moves from 0 to 1 or from -1 to 0, and a sell date
    exactly when it moves from 1 to 0 or from 0 to -1; a move between 1 and
    -1 in either direction is neither. *)
Theorem rsi_buy_and_sell_dates
  (closes : list num) (period oversold overbought : Z) (d : frame)
  (k : nat) (before after : Z)
  (Hd : rsi_strategy closes period oversold overbought = Ok d)
  (Hbefore : nth_error (Signal d) k = Some before)
  (Hafter : nth_error (Signal d) (S k) = Some after) :
  (is_buy d (S k) = true
   <-> (before = 0 /\ after = 1) \/ (before = -1 /\ after = 0))
  /\ (is_sell d (S k) = true
      <-> (before = 1 /\ after = 0) \/ (before = 0 /\ after = -1))
  /\ ((before = 1 /\ after = -1) \/ (before = -1 /\ after = 1) ->
      is_buy d (S k) = false /\ is_sell d (S k) = false).
Proof.
  destruct (rsi_strategy_inv _ _ _ _ _ Hd) as (rsi & _ & HS & HP & _).
  assert (Hvals : forall i v, nth_error (Signal d) i = Some v ->
                              v = -1 \/ v = 0 \/ v = 1).
  { intros i v Hv. rewrite HS, nth_error_map in Hv.
    destruct (nth_error rsi i); [|discriminate]. cbn in Hv.
    injection Hv as <-. apply rsi_signal_at_values. }
  pose proof (Hvals _ _ Hbefore) as Hb.
  pose proof (Hvals _ _ Hafter) as Ha.
  unfold is_buy, is_sell. rewrite !mem_index_where, HP.
  rewrite (zdiff_nth _ _ _ _ Hbefore Hafter). cbn [pos_is].
  rewrite !Z.eqb_eq.
  split; [|split].
  - split; [intros H | intros [[-> ->]|[-> ->]]; reflexivity].
    destruct Hb as [-> | [-> | ->]], Ha as [-> | [-> | ->]]; cbn in H;
      try discriminate; auto.
  - split; [intros H | intros [[-> ->]|[-> ->]]; reflexivity].
    destruct Hb as [-> | [-> | ->]], Ha as [-> | [-> | ->]]; cbn in H;
      try discriminate; auto.
  - intros [[-> ->]|[-> ->]]; split;
      apply not_true_is_false; rewrite Z.eqb_eq; discriminate.
Qed.

Lemma rsi_buy_and_sell_dates_witness :
  exists d,
    rsi_strategy jump_closes 2 30 70 = Ok d
    /\ nth_error (Signal d) 2 = Some 1
    /\ nth_error (Signal d) 3 = Some (-1)
    /\ is_buy d 3 = false /\ is_sell d 3 = false.
Proof.
  assert (Hd : rsi_strategy jump_closes 2 30 70
               = Ok {| Close := jump_closes; Signal := [0; 1; 1; -1];
                       Position := [None; Some 1; Some 0; Some (-2)] |})
    by (vm_compute; reflexivity).
  eexists. split; [exact Hd|]. split; [reflexivity|]. split; [reflexivity|].
  apply (proj2 (proj2 (rsi_buy_and_sell_dates jump_closes 2 30 70 _ 2%nat 1 (-1)
                         Hd eq_refl eq_refl))).
  left. split; reflexivity.
Defined.

(** ** Trade count *)

Lemma strategy_signal_values (s : strategy) (closes : list num) (d : frame) :
  apply_strategy s closes = Ok d ->
  Forall (fun x => x = -1 \/ x = 0 \/ x = 1) (Signal d)
  /\ (forall sp lp, s = MA_Crossover sp lp ->
      Forall (fun x => x = 0 \/ x = 1) (Signal d)).
Proof.
  destruct s as [sp lp|p os ob]; cbn [apply_strategy]; intros Hd.
  - destruct (ma_crossover_inv _ _ _ _ Hd) as (ms & ml & _ & _ & -> & _).
    assert (H01 : Forall (fun x => x = 0 \/ x = 1) (ma_signal sp ms ml)).
    { unfold ma_signal. apply Forall_map, Forall_forall. intros t _.
      apply ma_signal_at_values. }
    split; [|intros; exact H01].
    eapply Forall_impl; [|exact H01]. intros x [-> | ->]; auto.
  - destruct (rsi_strategy_inv _ _ _ _ _ Hd) as (rsi & _ & -> & _).
    split; [|discriminate].
    apply Forall_map, Forall_forall. intros r _. apply rsi_signal_at_values.
Qed.

(** On a column of signals -1, 0, 1 the difference of two consecutive
    signals is 1 on the moves 0 -> 1 and -1 -> 0, and on no other move. *)
Lemma unit_rises (prev : Z) (xs : list Z) :
  (prev = -1 \/ prev = 0 \/ prev = 1) ->
  Forall (fun x => x = -1 \/ x = 0 \/ x = 1) xs ->
  length (filter (pos_is 1) (zdiff_from prev xs))
  = (moves_from 0 1 prev xs + moves_from (-1) 0 prev xs)%nat.
Proof.
  intros Hp Hxs. revert prev Hp.
  induction Hxs as [|x xs Hx _ IH]; intros prev Hp; [reflexivity|].
  cbn [zdiff_from filter moves_from pos_is].
  pose proof (IH x Hx) as IHx.
  destruct Hp as [-> | [-> | ->]], Hx as [-> | [-> | ->]];
    match goal with
    | |- context [?a - ?b =? 1] =>
        let v := eval vm_compute in (a - b =? 1) in
        change (a - b =? 1) with v
    end;
    cbn [Z.eqb Pos.eqb andb length]; rewrite IHx; lia.
Qed.

Lemma no_recovery (prev : Z) (xs : list Z) :
  (prev = 0 \/ prev = 1) -> Forall (fun x => x = 0 \/ x = 1) xs ->
  moves_from (-1) 0 prev xs = 0%nat.
Proof.
  intros Hp Hxs. revert prev Hp.
  induction Hxs as [|x xs Hx _ IH]; intros prev Hp; [reflexivity|].
  cbn [moves_from]. rewrite (IH x Hx).
  destruct Hp as [-> | ->]; reflexivity.
Qed.

Lemma firstn_succ {A : Type} (n : nat) (xs : list A) :
  firstn (S n) xs
  = firstn n xs ++ match nth_error xs n with Some x => [x] | None => [] end.
Proof.
  revert xs. induction n as [|n IH]; intros [|x xs]; try reflexivity.
  cbn [firstn nth_error app]. f_equal. apply IH.
Qed.

Lemma count_firstn {A : Type} (f : A -> bool) (n : nat) (xs : list A) :
  (length (filter f (firstn n xs)) <= length (filter f xs))%nat.
Proof.
  rewrite <- (firstn_skipn n xs) at 2. rewrite filter_app, length_app. lia.
Qed.

(** An entry needs a buy signal on its bar. *)
Lemma entry_needs_buy (data : frame) (initial_capital : num) (k : nat) :
  position (sim_after data initial_capital k) = 0 ->
  position (sim_after data initial_capital (S k)) = 1 ->
  is_buy data k = true.
Proof.
  rewrite sim_after_S. unfold sim_step, trade. cbn [position].
  fold (is_buy data k) (is_sell data k). intros H0. rewrite H0.
  destruct (is_buy data k); [reflexivity|].
  cbn [andb Z.eqb]. rewrite andb_false_r. rewrite H0. discriminate.
Qed.

Lemma entries_le_buys (data : frame) (initial_capital : num) (n : nat) :
  (entries data initial_capital n
   <= length (filter (pos_is 1) (firstn n (Position data))))%nat.
Proof.
  unfold entries. induction n as [|n IH]; [cbn; lia|].
  rewrite events_S, filter_app, length_app, firstn_succ, filter_app, length_app.
  unfold event_of.
  destruct (Z.eqb_spec (position (sim_after data initial_capital n)) 0) as [H0|H0];
    [destruct (Z.eqb_spec (position (sim_after data initial_capital (S n))) 1)
       as [H1|H1]|].
  - pose proof (entry_needs_buy data initial_capital n H0 H1) as Hb.
    unfold is_buy in Hb. rewrite mem_index_where in Hb.
    destruct (nth_error (Position data) n) as [p|]; [|discriminate].
    cbn [andb filter is_enter length]. rewrite Hb. cbn [length]. lia.
  - cbn [andb]. rewrite H0. cbn [Z.eqb andb filter length]. lia.
  - cbn [andb].
    destruct ((position (sim_after data initial_capital n) =? 1)
              && (position (sim_after data initial_capital (S n)) =? 0));
      cbn [filter is_enter length]; lia.
Qed.

(** C5 (as the code has it): [trades] is the number of bars whose
    [Position] is 1, that is of the moves of the signal from 0 to 1 and
    from -1 to 0; under MA crossover these are the moves from 0 to 1 alone.
    A buy signal counts whether or not a sell follows and whether or not
    the loop acts on it, so [trades] is at least the number of entries the
    loop executes and at least the number of completed trades the win rate
    looks at, and can be strictly larger. *)
Theorem C5_trade_count
  (s : strategy) (closes : list num) (d : frame)
  (initial_capital : num) (m : metrics)
  (Hd : apply_strategy s closes = Ok d)
  (Hrun : calculate_performance_metrics d initial_capital = Ok m) :
  trades m = length (filter (pos_is 1) (Position d))
  /\ trades m = (moves 0 1 (Signal d) + moves (-1) 0 (Signal d))%nat
  /\ (forall sp lp, s = MA_Crossover sp lp -> trades m = moves 0 1 (Signal d))
  /\ (entries d initial_capital (length (Close d)) <= trades m)%nat
  /\ (completed_trades d <= trades m)%nat
  /\ (completed_trades open_frame
      < length (index_where 1 (Position open_frame)))%nat.
Proof.
  destruct (metrics_fields _ _ _ Hrun) as (Ht & _).
  destruct (apply_strategy_inv _ _ _ Hd) as (_ & HP & _).
  destruct (strategy_signal_values _ _ _ Hd) as [Hvals H01].
  rewrite Ht, index_where_length.
  assert (Hmoves : length (filter (pos_is 1) (Position d))
                   = (moves 0 1 (Signal d) + moves (-1) 0 (Signal d))%nat).
  { rewrite HP. destruct (Signal d) as [|x xs]; [reflexivity|].
    cbn [zdiff filter pos_is moves]. inversion Hvals; subst.
    apply unit_rises; assumption. }
  split; [reflexivity|]. split; [exact Hmoves|].
  split; [|split; [|split]].
  - intros sp lp Hs. rewrite Hmoves. specialize (H01 sp lp Hs).
    destruct (Signal d) as [|x xs]; [reflexivity|].
    cbn [moves]. inversion H01; subst.
    rewrite no_recovery by assumption. lia.
  - etransitivity; [apply entries_le_buys|]. apply count_firstn.
  - unfold completed_trades. rewrite index_where_length. apply Nat.le_min_l.
  - vm_compute. lia.
Qed.

Lemma C5_trade_count_witness :
  apply_strategy (MA_Crossover 1 2) open_closes = Ok open_frame
  /\ exists m,
       calculate_performance_metrics open_frame (of_Z 100000) = Ok m
       /\ trades m = 2%nat
       /\ moves 0 1 (Signal open_frame) = 2%nat
       /\ completed_trades open_frame = 1%nat.
Proof.
  assert (Hd : apply_strategy (MA_Crossover 1 2) open_closes = Ok open_frame)
    by (vm_compute; reflexivity).
  split; [exact Hd|].
  destruct (metrics_total open_frame (of_Z 100000)) as [m Hm];
    [discriminate|reflexivity|].
  exists m. split; [exact Hm|].
  destruct (C5_trade_count _ _ _ _ _ Hd Hm) as (_ & _ & Hma & _).
  split; [rewrite (Hma 1 2 eq_refl)|]; repeat split.
Defined.

(** C5, as stated, fails under the RSI strategy with period 2 and
    thresholds 30/70.  On closes 10, 9, 18, 9 the signal is 0, 1, -1, 0:
    one move from 0 to 1 and one entry of the loop, but 2 trades counted
    (the move from -1 to 0 counts, the loop being still Long).  On closes
    10, 11, 10 the signal is 0, -1, 0 and never 1: 1 trade counted. *)
Lemma C5_counterexample :
  (exists d m,
      rsi_strategy flip_closes 2 30 70 = Ok d
      /\ Signal d = [0; 1; -1; 0]
      /\ Position d = [None; Some 1; Some (-2); Some 1]
      /\ calculate_performance_metrics d (of_Z 100000) = Ok m
      /\ trades m = 2%nat
      /\ moves 0 1 (Signal d) = 1%nat
      /\ entries d (of_Z 100000) 4 = 1%nat)
  /\ (exists d m,
         rsi_strategy bump_closes 2 30 70 = Ok d
         /\ Signal d = [0; -1; 0]
         /\ calculate_performance_metrics d (of_Z 100000) = Ok m
         /\ trades m = 1%nat
         /\ moves 0 1 (Signal d) = 0%nat).
Proof.
  split.
  - eexists. eexists. split; [vm_compute; reflexivity|].
    cbn [Signal Position].
    split; [reflexivity|]. split; [reflexivity|].
    split; [vm_compute; reflexivity|].
    cbn [trades]. repeat split.
  - eexists. eexists. split; [vm_compute; reflexivity|].
    cbn [Signal].
    split; [reflexivity|].
    split; [vm_compute; reflexivity|].
    cbn [trades]. repeat split.
Qed.

(** ** The two errors of a run *)

Example short_period_beyond_series :
  run_analysis (MA_Crossover 50 20) demo_closes (of_Z 100000)
  = Failed ValueError.
Proof. vm_compute. reflexivity. Qed.

Example zero_capital_without_buy :
  run_analysis (MA_Crossover 2 2) demo_closes (of_Z 0)
  = Failed ZeroDivisionError.
Proof. vm_compute. reflexivity. Qed.
